(** * Natural Selection Simulator (birds edition): the generation engine

    A shallow embedding of [dna_mutation_explorer_game.jsx]: the organism
    factory [randomPopulation], the fitness model [fitnessForTrait], the
    click handler [simulateGeneration] of the component with the timer
    callback that follows it, and the preset handler [quickScenario].

    Modelling conventions.
    - A JS number that holds a measure (fitness, score, predator strength,
      a value of [Math.random()]) is an exact rational of [Q]: the
      arithmetic is the real-number one, without binary64 rounding, NaN or
      infinities.  Counters are integers ([Z]) or naturals ([nat]).
    - A trait is a JS string or [undefined] (what an array read out of
      range gives), so that "the trait is one of the three names" is a
      property to be proved and not a typing fact.
    - [Math.random()] is an explicit sequence [rnd] of draws, read in the
      order the program calls it; a computation threads the index of the
      next draw (the monad [M]).
    - Where a statement turns on the rounding of binary64, the module
      [Binary64] carries the same expressions over the kernel's binary64
      floats, to be evaluated at given numbers.
    - The component's [useState] cells form the record [State]; a handler
      is a function from the rendered state to the state React commits
      after the handler's queued updates.  A handler ends in a completion,
      [Normal] or [Throw]. *)

From Stdlib Require Import QArith Qminmax Qround Lqa Lia ZArith.
From Stdlib Require Import List String Bool Permutation Sorted.
From Stdlib Require PrimFloat FloatOps SpecFloat.
Import ListNotations.

Local Open Scope Q_scope.

(** ** JavaScript values *)

(** [x < y] on numbers. *)
Definition Qltb (x y : Q) : bool := negb (Qle_bool y x).

(** A string-valued expression: a string, or [undefined] as [None]. *)
Definition Trait : Type := option string.

(** [t === s] for a string literal [s]. *)
Definition is_str (t : Trait) (s : string) : bool :=
  match t with
  | Some x => String.eqb x s
  | None => false
  end.

Notation "t === s" := (is_str t s%string) (at level 70, no associativity).

(** [arr[i]] for a number [i] that holds an integer. *)
Definition index {A : Type} (arr : list A) (i : Z) : option A :=
  if (i <? 0)%Z then None else nth_error arr (Z.to_nat i).

(** How a function call completes. *)
Inductive completion (A : Type) : Type :=
| Normal (a : A)
| Throw (e : string).

Arguments Normal {A} a.
Arguments Throw {A} e.

(** ** Data model *)

Definition TRAITS : list string := ["Small"; "Medium"; "Large"]%string.

(** [id] is the base-36 rendering of a draw; the draw itself stands for
    it.  [energy] is always the literal 0. *)
Record Organism : Type := mkOrganism {
  id : Q;
  trait : Trait;
  energy : Z
}.

(** [{ ...org, score }] *)
Record Scored : Type := mkScored {
  org : Organism;
  score : Q
}.

Record Env : Type := mkEnv {
  seed : string;
  predatorStrength : Q
}.

(** The object [{ Small, Medium, Large }] of [traitCounts]. *)
Record Counts : Type := mkCounts {
  Small : nat;
  Medium : nat;
  Large : nat
}.

(** An entry of [history]: [{ generation, counts, env }]. *)
Record GenerationRecord : Type := mkRecord {
  h_generation : Z;
  h_counts : Counts;
  h_env : Env
}.

(** The [useState] cells of the component. *)
Record State : Type := mkState {
  generation : Z;
  populationSize : nat;
  population : list Organism;
  env : Env;
  foodPerGen : Z;
  history : list GenerationRecord;
  message : string;
  running : bool
}.

(** ** Fitness model *)

Definition fitnessForTrait (trait : Trait) (env : Env) : Q :=
  let base :=
    if String.eqb (seed env) "small" then
      if trait === "Small" then 1.2 else if trait === "Medium" then 1.0 else 0.8
    else if String.eqb (seed env) "mixed" then
      if trait === "Small" then 1.05 else if trait === "Medium" then 1.1 else 1.0
    else
      if trait === "Small" then 0.7 else if trait === "Medium" then 1.0 else 1.25 in
  let predatorPenalty :=
    predatorStrength env *
    (if trait === "Large" then 0.3 else if trait === "Small" then 0.05 else 0.15) in
  Qmax 0.1 (base - predatorPenalty).

(** The policy table and the penalty factors as the design document lists
    them, for comparison with [fitnessForTrait]. *)
Module Policy.

Inductive trait : Set := Small | Medium | Large.
Inductive seedSize : Set := small | mixed | large.

Definition traitName (t : trait) : Trait :=
  Some (match t with
        | Small => "Small" | Medium => "Medium" | Large => "Large"
        end%string).

Definition seedName (s : seedSize) : string :=
  match s with
  | small => "small" | mixed => "mixed" | large => "large"
  end%string.

Definition base (s : seedSize) (t : trait) : Q :=
  match s, t with
  | small, Small => 1.2  | small, Medium => 1.0 | small, Large => 0.8
  | mixed, Small => 1.05 | mixed, Medium => 1.1 | mixed, Large => 1.0
  | large, Small => 0.7  | large, Medium => 1.0 | large, Large => 1.25
  end.

Definition penaltyFactor (t : trait) : Q :=
  match t with
  | Large => 0.3 | Medium => 0.15 | Small => 0.05
  end.

Definition baseFitness (t : trait) (s : seedSize) (predatorStrength : Q) : Q :=
  Qmax 0.1 (base s t - predatorStrength * penaltyFactor t).

End Policy.

(** ** Pure parts of the generation step *)

(** [population.forEach((p) => counts[p.trait]++)] from
    [{ Small: 0, Medium: 0, Large: 0 }].  The record carries the three
    named properties; a trait outside [TRAITS] would give the JS object a
    further property, which no population of the component has. *)
Definition countTrait (counts : Counts) (p : Organism) : Counts :=
  if trait p === "Small" then
    mkCounts (S (Small counts)) (Medium counts) (Large counts)
  else if trait p === "Medium" then
    mkCounts (Small counts) (S (Medium counts)) (Large counts)
  else if trait p === "Large" then
    mkCounts (Small counts) (Medium counts) (S (Large counts))
  else counts.

Definition traitCounts (population : list Organism) : Counts :=
  fold_left countTrait population (mkCounts 0 0 0).

(** The comparator [(a, b) => b.score - a.score]. *)
Definition compareFn (a b : Scored) : Q := score b - score a.

(** [scored.sort(compareFn)].  ECMAScript requires the sort to be stable,
    and a stable sort has one result for a consistent comparator: each
    element goes in front of the first later element it does not have to
    follow. *)
Fixpoint insert (x : Scored) (l : list Scored) : list Scored :=
  match l with
  | [] => [x]
  | y :: l' =>
      if Qle_bool (compareFn x y) 0 then x :: y :: l' else y :: insert x l'
  end.

Definition sort (l : list Scored) : list Scored := fold_right insert [] l.

(** The loop over [scored] with the food budget: the state is [foodLeft]
    and the array [survivors] built so far. *)
Fixpoint feed (foodLeft : Z) (survivors scored : list Scored) : list Scored :=
  match scored with
  | [] => survivors
  | x :: rest =>
      if (0 <? foodLeft)%Z
      then feed (foodLeft - 1)%Z (survivors ++ [x]) rest
      else feed foodLeft survivors rest
  end.

(** [afterPredation.reduce((s, p) => s + p.score, 0)] *)
Definition totalScore (afterPredation : list Scored) : Q :=
  fold_left (fun s p => s + score p) afterPredation 0.

(** The [for (const p of afterPredation)] walk: [acc] is the sum so far,
    [parent] the value the variable holds if the walk ends without a
    [break]. *)
Fixpoint roulette (pick acc : Q) (parent : Scored) (l : list Scored) : Scored :=
  match l with
  | [] => parent
  | p :: rest =>
      let acc := acc + score p in
      if Qle_bool pick acc then p else roulette pick acc parent rest
  end.

(** ** Computations that draw random numbers *)

Section Engine.

(** The values returned by the successive calls of [Math.random()]. *)
Variable rnd : nat -> Q.

(** A computation from the index of the next draw to a result and the
    index after it. *)
Definition M (A : Type) : Type := nat -> A * nat.

Definition ret {A : Type} (a : A) : M A := fun i => (a, i).

Definition bind {A B : Type} (m : M A) (k : A -> M B) : M B :=
  fun i => let (a, j) := m i in k a j.

Definition random : M Q := fun i => (rnd i, S i).

Local Notation "x <- m ;; k" := (bind m (fun x => k))
  (at level 61, m at next level, right associativity).

(** [arr.map(f)] and [arr.filter(f)] for callbacks that draw. *)
Fixpoint mapM {A B : Type} (f : A -> M B) (l : list A) : M (list B) :=
  match l with
  | [] => ret []
  | x :: rest => y <- f x ;; ys <- mapM f rest ;; ret (y :: ys)
  end.

Fixpoint filterM {A : Type} (f : A -> M bool) (l : list A) : M (list A) :=
  match l with
  | [] => ret []
  | x :: rest =>
      keep <- f x ;; ys <- filterM f rest ;;
      ret (if keep then x :: ys else ys)
  end.

(** *** Organism factory *)

Definition newOrganism : M Organism :=
  i <- random ;;
  r <- random ;;
  ret (mkOrganism i
         (index TRAITS (Qfloor (r * inject_Z (Z.of_nat (List.length TRAITS))))) 0).

Fixpoint randomPopulation (size : nat) : M (list Organism) :=
  match size with
  | O => ret []
  | S n => o <- newOrganism ;; rest <- randomPopulation n ;; ret (o :: rest)
  end.

(** *** The stages of [simulateGeneration] *)

Definition scoreOrganism (env : Env) (o : Organism) : M Scored :=
  r <- random ;;
  let fit := fitnessForTrait (trait o) env in
  let randomNoise := 0.7 + r * 0.6 in
  ret (mkScored o (fit * randomNoise)).

Definition survivesPredation (env : Env) (_ : Scored) : M bool :=
  r <- random ;; ret (Qltb (predatorStrength env * 0.5) r).

(** Lines 98 to 104: the offspring's trait from the parent's. *)
Definition mutateTrait (parentTrait : Trait) : M Trait :=
  r <- random ;;
  let mutate := Qltb r 0.06 in
  if mutate then
    if parentTrait === "Small" then
      r <- random ;;
      ret (if Qltb r 0.5 then Some "Small" else Some "Medium")%string
    else if parentTrait === "Medium" then
      r <- random ;;
      ret (index ["Small"; "Medium"; "Large"]%string (Qfloor (r * 3)))
    else
      r <- random ;;
      ret (if Qltb r 0.5 then Some "Medium" else Some "Large")%string
  else ret parentTrait.

(** One pass of the [while] body for a pool whose first element is
    [first]. *)
Definition breed (first : Scored) (afterPredation : list Scored) : M Organism :=
  r <- random ;;
  let pick := r * totalScore afterPredation in
  let parent := roulette pick 0 first afterPredation in
  t <- mutateTrait (trait (org parent)) ;;
  i <- random ;;
  ret (mkOrganism i t 0).

(** The [while (offspring.length < populationSize)] loop, indexed by its
    variant [missing = populationSize - offspring.length]: the loop test
    is [0 < missing], every pass pushes one offspring, and the [break]
    leaves with what has been pushed. *)
Fixpoint reproduce (missing : nat) (afterPredation : list Scored)
    (offspring : list Organism) : M (list Organism) :=
  match missing with
  | O => ret offspring
  | S n =>
      match afterPredation with
      | [] => ret offspring
      | first :: _ =>
          child <- breed first afterPredation ;;
          reproduce n afterPredation (offspring ++ [child])
      end
  end.

(** Lines 63 to 81: the pool the reproduction draws from. *)
Definition scoredOf (s : State) : M (list Scored) :=
  mapM (scoreOrganism (env s)) (population s).

Definition survivorsOf (s : State) : M (list Scored) :=
  scored <- scoredOf s ;;
  ret (feed (foodPerGen s) [] (sort scored)).

Definition afterPredationOf (s : State) : M (list Scored) :=
  survivors <- survivorsOf s ;;
  filterM (survivesPredation (env s)) survivors.

(** Lines 83 to 107. *)
Definition offspringOf (s : State) : M (list Organism) :=
  afterPredation <- afterPredationOf s ;;
  reproduce (populationSize s) afterPredation [].

Definition weakened : string :=
  " Population weakened; random immigrants arrived.".

(** The handler of the "Simulate Gen" button, up to the updates it
    queues; the timer it starts is [generationComplete]. *)
Definition simulateGeneration (s : State) : M (completion State) :=
  let message := "Simulating generation..."%string in
  offspring <- offspringOf s ;;
  let short := (List.length offspring <? populationSize s)%nat in
  immigrants <-
    (if short
     then randomPopulation (populationSize s - List.length offspring)
     else ret []) ;;
  let newPop := if short then (offspring ++ immigrants)%list else offspring in
  let message := if short then String.append message weakened else message in
  ret (Normal
         {| generation := (generation s + 1)%Z;
            populationSize := populationSize s;
            population := newPop;
            env := env s;
            foodPerGen := foodPerGen s;
            history :=
              (history s ++
               [mkRecord (generation s) (traitCounts (population s)) (env s)])%list;
            message := message;
            running := true |}).

(** The [setTimeout] callback. *)
Definition generationComplete (s : State) : State :=
  {| generation := generation s;
     populationSize := populationSize s;
     population := population s;
     env := env s;
     foodPerGen := foodPerGen s;
     history := history s;
     message :=
       "Generation complete. Observe the changes and adjust environment.";
     running := false |}.

(** [n] clicks on "Simulate Gen"; the button is disabled while [running],
    so each click finds the timer of the one before it fired. *)
Fixpoint generations (n : nat) (s : State) : M (completion State) :=
  match n with
  | O => ret (Normal s)
  | S k =>
      c <- simulateGeneration s ;;
      match c with
      | Normal s' => generations k (generationComplete s')
      | Throw e => ret (Throw e)
      end
  end.

End Engine.

(** ** Scenario presets *)

Definition setEnv (e : Env) (s : State) : State :=
  {| generation := generation s;
     populationSize := populationSize s;
     population := population s;
     env := e;
     foodPerGen := foodPerGen s;
     history := history s;
     message := message s;
     running := running s |}.

Definition setMessage (m : string) (s : State) : State :=
  {| generation := generation s;
     populationSize := populationSize s;
     population := population s;
     env := env s;
     foodPerGen := foodPerGen s;
     history := history s;
     message := m;
     running := running s |}.

Definition quickScenario (name : string) (s : State) : completion State :=
  let s := if String.eqb name "Drought (small seeds)"
           then setEnv (mkEnv "small" 0.2) s else s in
  let s := if String.eqb name "Abundant large seeds"
           then setEnv (mkEnv "large" 0.1) s else s in
  let s := if String.eqb name "High predators"
           then setEnv (mkEnv "mixed" 0.6) s else s in
  let s := if String.eqb name "Mixed stable"
           then setEnv (mkEnv "mixed" 0.15) s else s in
  Normal (setMessage (String.append "Scenario set: " name) s).

(** The names of the four presets. *)
Definition scenarioNames : list string :=
  ["Drought (small seeds)"; "Abundant large seeds"; "High predators";
   "Mixed stable"]%string.

(** ** The other handlers and the rendered lists *)

Definition setGeneration (g : Z) (s : State) : State :=
  {| generation := g;
     populationSize := populationSize s;
     population := population s;
     env := env s;
     foodPerGen := foodPerGen s;
     history := history s;
     message := message s;
     running := running s |}.

Definition setPopulationSize (n : nat) (s : State) : State :=
  {| generation := generation s;
     populationSize := n;
     population := population s;
     env := env s;
     foodPerGen := foodPerGen s;
     history := history s;
     message := message s;
     running := running s |}.

Definition setPopulation (p : list Organism) (s : State) : State :=
  {| generation := generation s;
     populationSize := populationSize s;
     population := p;
     env := env s;
     foodPerGen := foodPerGen s;
     history := history s;
     message := message s;
     running := running s |}.

Definition setFoodPerGen (f : Z) (s : State) : State :=
  {| generation := generation s;
     populationSize := populationSize s;
     population := population s;
     env := env s;
     foodPerGen := f;
     history := history s;
     message := message s;
     running := running s |}.

Definition setHistory (h : list GenerationRecord) (s : State) : State :=
  {| generation := generation s;
     populationSize := populationSize s;
     population := population s;
     env := env s;
     foodPerGen := foodPerGen s;
     history := h;
     message := message s;
     running := running s |}.

(** The "- Food" button: [setFoodPerGen((f) => Math.max(1, f - 1))]. *)
Definition lessFood (s : State) : State :=
  setFoodPerGen (Z.max 1 (foodPerGen s - 1)) s.

(** The "+ Food" button: [setFoodPerGen((f) => f + 1)]. *)
Definition moreFood (s : State) : State :=
  setFoodPerGen (foodPerGen s + 1) s.

(** The "Clear History" button. *)
Definition clearHistory (s : State) : State :=
  setMessage "History cleared." (setHistory [] s).

(** [history.slice(-8).reverse()], the entries the history panel lists. *)
Definition recentHistory (history : list GenerationRecord) : list GenerationRecord :=
  rev (skipn (List.length history - 8) history).

(** [population.slice(0, 80)], the birds drawn, and the count of the
    "... (+N more)" note, which is rendered when
    [population.length > 80]. *)
Definition shownBirds (population : list Organism) : list Organism :=
  firstn 80 population.

Definition moreNote (population : list Organism) : option nat :=
  if (80 <? List.length population)%nat
  then Some (List.length population - 80)%nat
  else None.

Section Handlers.

Variable rnd : nat -> Q.

Local Notation "x <- m ;; k" := (bind m (fun x => k))
  (at level 61, m at next level, right associativity).

(** The effect that follows a change of [populationSize]:
    [setPopulation((prev) => prev.length === populationSize ? prev :
    randomPopulation(populationSize))]. *)
Definition syncPopulation (s : State) : M State :=
  if (List.length (population s) =? populationSize s)%nat
  then ret s
  else p <- randomPopulation rnd (populationSize s) ;; ret (setPopulation p s).

(** The size slider: [setPopulationSize(Number(e.target.value))], then the
    effect. *)
Definition changePopulationSize (n : nat) (s : State) : M State :=
  syncPopulation (setPopulationSize n s).

(** The "Reset" button. *)
Definition resetSimulation (s : State) : M State :=
  p <- randomPopulation rnd (populationSize s) ;;
  ret (setMessage "" (setHistory [] (setPopulation p (setGeneration 1 s)))).

(** The component: its cells and the number of [setTimeout] callbacks
    that have not run yet. *)
Record Component : Type := mkComponent {
  cells : State;
  timers : nat
}.

(** The initial values of the [useState] cells. *)
Definition mount : M Component :=
  p <- randomPopulation rnd 20 ;;
  ret (mkComponent
         {| generation := 1;
            populationSize := 20;
            population := p;
            env := mkEnv "mixed" 0.2;
            foodPerGen := 18;
            history := [];
            message := "";
            running := false |} 0).

(** What the user and the timer can do. *)
Inductive action : Type :=
| ClickSimulate
| TimerFires
| ClickScenario (name : string)
| ClickLessFood
| ClickMoreFood
| Slide (n : nat)
| ClickReset
| ClickClearHistory.

(** "Simulate Gen" is [disabled={running}]; the scenario buttons pass the
    four preset names; the slider has [min="6" max="60"]. *)
Definition enabled (a : action) (c : Component) : bool :=
  match a with
  | ClickSimulate => negb (running (cells c))
  | TimerFires => (0 <? timers c)%nat
  | ClickScenario name => existsb (String.eqb name) scenarioNames
  | Slide n => ((6 <=? n) && (n <=? 60))%nat
  | ClickLessFood | ClickMoreFood | ClickReset | ClickClearHistory => true
  end.

Definition withCells (c : Component) (s : State) : Component :=
  mkComponent s (timers c).

Definition step (a : action) (c : Component) : M Component :=
  match a with
  | ClickSimulate =>
      r <- simulateGeneration rnd (cells c) ;;
      ret (match r with
           | Normal s => mkComponent s (S (timers c))
           | Throw _ => c
           end)
  | TimerFires => ret (mkComponent (generationComplete (cells c)) (pred (timers c)))
  | ClickScenario name =>
      ret (match quickScenario name (cells c) with
           | Normal s => withCells c s
           | Throw _ => c
           end)
  | ClickLessFood => ret (withCells c (lessFood (cells c)))
  | ClickMoreFood => ret (withCells c (moreFood (cells c)))
  | Slide n => s <- changePopulationSize n (cells c) ;; ret (withCells c s)
  | ClickReset => s <- resetSimulation (cells c) ;; ret (withCells c s)
  | ClickClearHistory => ret (withCells c (clearHistory (cells c)))
  end.

(** The components a session can reach.  Rendering draws from
    [Math.random()] too (the animation delays), so every action starts at
    a draw index of its own. *)
Inductive reachable : Component -> Prop :=
| reach_mount (i : nat) : reachable (fst (mount i))
| reach_step (c : Component) (a : action) (i : nat) :
    reachable c -> enabled a c = true -> reachable (fst (step a c i)).

End Handlers.

(** ** The fitness and mutation expressions in binary64 *)

Module Binary64.

Import PrimFloat FloatOps SpecFloat.

#[local] Set Warnings "-inexact-float".

Local Open Scope float_scope.

(** [Math.max(a, b)]: NaN when an argument is NaN. *)
Definition Math_max (a b : float) : float :=
  if is_nan a || is_nan b then nan else if a <? b then b else a.

(** [Math.floor(x)] as an integer; [None] for NaN and the infinities. *)
Definition Math_floor (x : float) : option Z :=
  match Prim2SF x with
  | S754_zero _ => Some 0%Z
  | S754_finite s m e => Some (Z.shiftl (if s then Zneg m else Zpos m) e)
  | S754_infinity _ | S754_nan => None
  end.


(** [fitnessForTrait(trait, env)] for [env = { seed, predatorStrength }]. *)
Definition fitnessForTrait (trait : Trait) (seed : string)
    (predatorStrength : float) : float :=
  let base :=
    if String.eqb seed "small" then
      if trait === "Small" then 1.2 else if trait === "Medium" then 1.0 else 0.8
    else if String.eqb seed "mixed" then
      if trait === "Small" then 1.05 else if trait === "Medium" then 1.1 else 1.0
    else
      if trait === "Small" then 0.7 else if trait === "Medium" then 1.0 else 1.25 in
  let predatorPenalty :=
    predatorStrength *
    (if trait === "Large" then 0.3 else if trait === "Small" then 0.05 else 0.15) in
  Math_max 0.1 (base - predatorPenalty).

(** Lines 98 to 104 for the draws [m] (always made) and [r] (made in the
    mutation branch). *)
Definition mutateTrait (parentTrait : Trait) (m r : float) : Trait :=
  let mutate := m <? 0.06 in
  if mutate then
    if parentTrait === "Small" then
      if r <? 0.5 then Some "Small"%string else Some "Medium"%string
    else if parentTrait === "Medium" then
      match Math_floor (r * 3) with
      | Some i => index ["Small"; "Medium"; "Large"]%string i
      | None => None
      end
    else
      if r <? 0.5 then Some "Medium"%string else Some "Large"%string
  else parentTrait.









End Binary64.

(** ** Vocabulary of the properties *)

(** [fitnessForTrait] on the enumerated traits and seed sizes. *)
Definition fit (t : Policy.trait) (s : Policy.seedSize) (p : Q) : Q :=
  fitnessForTrait (Policy.traitName t) (mkEnv (Policy.seedName s) p).

(** The elements of score [v]. *)
Definition sameScore (v : Q) (y : Scored) : bool := Qeq_bool (score y) v.

(** [a] may stand before [b] in a descending order of scores. *)
Definition desc (a b : Scored) : Prop := score b <= score a.

(** The value [acc] holds after the walk has passed the elements of [l]. *)
Definition sumFrom (acc : Q) (l : list Scored) : Q :=
  fold_left (fun s p => s + score p) l acc.

(** The cumulative score of the first [k] members of the pool. *)
Definition cumulative (pool : list Scored) (k : nat) : Q :=
  totalScore (firstn k pool).

(** A trait that is one of the names in [TRAITS]. *)
Definition validTrait (t : Trait) : Prop :=
  match t with
  | Some name => In name TRAITS
  | None => False
  end.

Definition validOrganism (o : Organism) : Prop := validTrait (trait o).

(** What the invariant of the component says of a state: the population
    has the configured size and holds only the three traits. *)
Definition wellFormed (s : State) : Prop :=
  List.length (population s) = populationSize s /\
  Forall validOrganism (population s).

(** What an invalid-argument failure of [quickScenario] on the names outside
    the presets would be. *)
Definition rejectsUnknownScenarios : Prop :=
  forall (name : string) (s : State),
    ~ In name scenarioNames -> exists e, quickScenario name s = Throw e.

(** The environments the component can hold: the initial one and the
    four presets. *)
Definition knownEnvs : list Env :=
  [mkEnv "mixed" 0.2; mkEnv "small" 0.2; mkEnv "large" 0.1; mkEnv "mixed" 0.6;
   mkEnv "mixed" 0.15].

Definition total (c : Counts) : nat := (Small c + Medium c + Large c)%nat.

(** The traits one reproduction can give to the offspring of a parent. *)
Definition drift (parent child : Trait) : Prop :=
  child = parent \/
  (if parent === "Small" then child = Some "Small"%string \/ child = Some "Medium"%string
   else if parent === "Medium" then validTrait child
   else child = Some "Medium"%string \/ child = Some "Large"%string).

(** History entries are numbered consecutively up to the generation before
    the current one. *)
Definition numbered (s : State) : Prop :=
  (Z.of_nat (List.length (history s)) < generation s)%Z /\
  forall k r, nth_error (history s) k = Some r ->
              h_generation r
              = (generation s - Z.of_nat (List.length (history s)) + Z.of_nat k)%Z.



(** Two sequences of draws to run the engine on. *)
Definition sampleRnd (n : nat) : Q := if Nat.even n then 0.9 else 0.04.

Definition lowRnd (_ : nat) : Q := 0.1.

(** The component after the size slider has been moved to 6: a population
    of [randomPopulation(6)], the initial environment and food budget. *)
Definition samplePopulation : list Organism :=
  [mkOrganism 0.11 (Some "Small"%string) 0;
   mkOrganism 0.22 (Some "Large"%string) 0;
   mkOrganism 0.33 (Some "Medium"%string) 0;
   mkOrganism 0.44 (Some "Medium"%string) 0;
   mkOrganism 0.55 (Some "Small"%string) 0;
   mkOrganism 0.66 (Some "Large"%string) 0].

Definition sampleState : State :=
  {| generation := 1;
     populationSize := 6;
     population := samplePopulation;
     env := mkEnv "mixed" 0.2;
     foodPerGen := 18;
     history := [];
     message := "";
     running := false |}.

(** The state one generation after [sampleState] under [sampleRnd], once
    the timer has fired. *)
Definition secondState : State :=
  match fst (simulateGeneration sampleRnd sampleState 0%nat) with
  | Normal s => generationComplete s
  | Throw _ => sampleState
  end.

(** [sampleState] after the "High predators" button. *)
Definition huntedState : State := setEnv (mkEnv "mixed" 0.6) sampleState.

(** [sampleState] as the "High predators" button leaves it, message
    included. *)
Definition huntedState' : State :=
  setMessage "Scenario set: High predators" huntedState.

(** What every state of a session satisfies. *)
Record healthy (c : Component) : Prop := mkHealthy {
  healthy_population : wellFormed (cells c);
  healthy_size : (6 <= populationSize (cells c) <= 60)%nat;
  healthy_energy : Forall (fun o => energy o = 0%Z) (population (cells c));
  healthy_food : (1 <= foodPerGen (cells c))%Z;
  healthy_env : In (env (cells c)) knownEnvs;
  healthy_numbered : numbered (cells c);
  healthy_records :
    Forall (fun r => In (h_env r) knownEnvs /\ (6 <= total (h_counts r) <= 60)%nat)
           (history (cells c));
  healthy_timers :
    (timers c <= 1)%nat /\ (running (cells c) = true <-> timers c = 1%nat)
}.

(** A session under [sampleRnd]: the mounted component, and the component
    right after a click on "Simulate Gen". *)
Definition startComponent : Component := fst (mount sampleRnd 0%nat).

Definition busyComponent : Component :=
  fst (step sampleRnd ClickSimulate startComponent 60%nat).

(** * Properties *)

(** ** Fitness model *)

Lemma Qmax_right (a b : Q) : a < b -> Qmax a b = b.
Proof.
  intros H. unfold Qmax, GenericMinMax.gmax.
  destruct (Qcompare_spec a b) as [E | L | G]; try reflexivity.
  - rewrite E in H. exfalso. apply (Qlt_irrefl b H).
  - exfalso. apply (Qlt_irrefl a). apply (Qlt_trans a b a); assumption.
Qed.

(** [Math.max(0.1, _)] bounds every result, whatever the trait and the
    environment. *)
Lemma fitnessForTrait_floor (t : Trait) (e : Env) : 0.1 <= fitnessForTrait t e.
Proof. unfold fitnessForTrait. apply Q.le_max_l. Qed.

(** On the three traits and the three seed sizes the conditionals of
    [fitnessForTrait] read the policy table and the penalty factors. *)
Lemma fitnessForTrait_table (t : Policy.trait) (s : Policy.seedSize) (p : Q) :
  fitnessForTrait (Policy.traitName t) (mkEnv (Policy.seedName s) p)
  = Qmax 0.1 (Policy.base s t - p * Policy.penaltyFactor t).
Proof. destruct t, s; reflexivity. Qed.

(** With a predator strength in [0,1] the difference stays at 0.5 or more. *)
Lemma raw_fitness_bounds (t : Policy.trait) (s : Policy.seedSize) (p : Q) :
  0 <= p <= 1 ->
  0.5 <= Policy.base s t - p * Policy.penaltyFactor t <= 1.25.
Proof.
  intros [H0 H1]. destruct t, s; unfold Policy.base, Policy.penaltyFactor; lra.
Qed.

Lemma fitnessForTrait_raw (t : Policy.trait) (s : Policy.seedSize) (p : Q) :
  0 <= p <= 1 ->
  fitnessForTrait (Policy.traitName t) (mkEnv (Policy.seedName s) p)
  = Policy.base s t - p * Policy.penaltyFactor t.
Proof.
  intros H. rewrite fitnessForTrait_table. apply Qmax_right.
  pose proof (raw_fitness_bounds t s p H). lra.
Qed.

(** C2: [fitnessForTrait] is a function of the trait, the seed size and the
    predator strength alone: on the three traits and three seed sizes it is
    the policy-table value minus the predator strength times the penalty
    factor, floored at 0.1 (it is the design document's [baseFitness]);
    equal rationals give equal results; and every result is at least 0.1. *)
Theorem fitnessForTrait_spec :
  (forall (t : Policy.trait) (s : Policy.seedSize) (p : Q),
      fitnessForTrait (Policy.traitName t) (mkEnv (Policy.seedName s) p)
      = Policy.baseFitness t s p) /\
  (forall (t : Trait) (s : string) (p q : Q),
      p == q -> fitnessForTrait t (mkEnv s p) == fitnessForTrait t (mkEnv s q)) /\
  (forall (t : Trait) (e : Env), 0.1 <= fitnessForTrait t e).
Proof.
  split; [| split].
  - intros t s p. apply fitnessForTrait_table.
  - intros t s p q E. unfold fitnessForTrait. cbn [seed predatorStrength].
    rewrite E. reflexivity.
  - apply fitnessForTrait_floor.
Qed.




(** C10: for every trait, every seed size and every predator strength in
    [0,1] the table value minus the penalty is at least 0.5, so
    [fitnessForTrait] returns that difference itself and not the floor 0.1,
    and the result lies in [0.5, 1.25]. *)
Theorem fitness_floor_inactive (t : Policy.trait) (s : Policy.seedSize) (p : Q) :
  0 <= p <= 1 ->
  0.5 <= Policy.base s t - p * Policy.penaltyFactor t /\
  fit t s p = Policy.base s t - p * Policy.penaltyFactor t /\
  0.1 < fit t s p /\
  0.5 <= fit t s p <= 1.25.
Proof.
  intros H. pose proof (raw_fitness_bounds t s p H) as B.
  unfold fit. rewrite (fitnessForTrait_raw t s p H).
  repeat split; try tauto. lra.
Qed.

Lemma fitnessForTrait_spec_witness :
  0.2 == 1 / 5 /\
  fitnessForTrait (Some "Large"%string) (mkEnv "mixed" 0.2)
  == fitnessForTrait (Some "Large"%string) (mkEnv "mixed" (1 / 5)).
Proof.
  split; [reflexivity |].
  apply (proj1 (proj2 fitnessForTrait_spec)). reflexivity.
Defined.


Lemma fitness_floor_inactive_witness :
  0 <= 1 <= 1 /\ fit Policy.Large Policy.small 1 = 0.8 - 1 * 0.3.
Proof.
  split; [split; vm_compute; discriminate |].
  apply (fitness_floor_inactive Policy.Large Policy.small 1).
  split; vm_compute; discriminate.
Defined.

(** ** Sorting and the food budget *)

Lemma insert_perm (x : Scored) (l : list Scored) :
  Permutation (insert x l) (x :: l).
Proof.
  induction l as [| y l IH]; cbn.
  - apply Permutation_refl.
  - destruct (Qle_bool (compareFn x y) 0).
    + apply Permutation_refl.
    + apply perm_trans with (y :: x :: l).
      * apply perm_skip, IH.
      * apply perm_swap.
Qed.

Lemma sort_perm (l : list Scored) : Permutation (sort l) l.
Proof.
  induction l as [| x l IH]; cbn.
  - apply perm_nil.
  - apply perm_trans with (x :: sort l).
    + apply insert_perm.
    + apply perm_skip, IH.
Qed.

Lemma insert_sorted (x : Scored) (l : list Scored) :
  StronglySorted desc l -> StronglySorted desc (insert x l).
Proof.
  induction l as [| y l IH]; intros H; cbn.
  - constructor; constructor.
  - inversion H as [| y' l' Hl Hy]; subst.
    destruct (Qle_bool (compareFn x y)) eqn:E.
    + apply Qle_bool_iff in E. unfold compareFn in E.
      constructor; [assumption |].
      constructor.
      * unfold desc. lra.
      * rewrite Forall_forall in Hy |- *. intros z Hz.
        specialize (Hy z Hz). unfold desc in *. lra.
    + assert (L : score x < score y).
      { destruct (Qlt_le_dec (score x) (score y)) as [L | G]; [exact L |].
        assert (Qle_bool (compareFn x y) 0 = true) as C.
        { apply Qle_bool_iff. unfold compareFn. lra. }
        congruence. }
      constructor; [apply IH, Hl |].
      rewrite Forall_forall in Hy |- *. intros z Hz.
      apply (Permutation_in _ (insert_perm x l)) in Hz.
      destruct Hz as [<- | Hz].
      * unfold desc. lra.
      * apply Hy, Hz.
Qed.

Lemma sort_sorted (l : list Scored) : StronglySorted desc (sort l).
Proof.
  induction l as [| x l IH]; cbn.
  - constructor.
  - apply insert_sorted, IH.
Qed.

(** Stability: the elements of one score keep their order. *)
Lemma insert_stable (v : Q) (x : Scored) (l : list Scored) :
  filter (sameScore v) (insert x l)
  = filter (sameScore v) (x :: l).
Proof.
  induction l as [| y l IH]; [reflexivity |].
  cbn [insert]. destruct (Qle_bool (compareFn x y)) eqn:E; [reflexivity |].
  cbn [filter] in *. rewrite IH. unfold sameScore.
  destruct (Qeq_bool (score x) v) eqn:Ex; [| reflexivity].
  destruct (Qeq_bool (score y) v) eqn:Ey; [| reflexivity].
  apply Qeq_bool_iff in Ex, Ey.
  assert (Qle_bool (compareFn x y) 0 = true) as C.
  { apply Qle_bool_iff. unfold compareFn. lra. }
  congruence.
Qed.

Lemma sort_stable (v : Q) (l : list Scored) :
  filter (sameScore v) (sort l)
  = filter (sameScore v) l.
Proof.
  induction l as [| x l IH]; [reflexivity |].
  cbn [sort fold_right]. fold (sort l). rewrite insert_stable.
  cbn [filter]. rewrite IH. reflexivity.
Qed.

(** A descending list is determined by its elements of each score, taken
    in order: a stable sort has one result. *)
Lemma sorted_stable_unique (l1 : list Scored) :
  forall l2,
    StronglySorted desc l1 -> StronglySorted desc l2 ->
    (forall v, filter (sameScore v) l1 = filter (sameScore v) l2) ->
    l1 = l2.
Proof.
  assert (R : forall x, sameScore (score x) x = true).
  { intros x. apply Qeq_bool_iff. reflexivity. }
  assert (Top : forall a b l l',
             filter (sameScore (score a)) (a :: l)
             = filter (sameScore (score a)) (b :: l') ->
             StronglySorted desc (b :: l') -> score a <= score b).
  { intros a b l l' F Sb. cbn [filter] in F. rewrite (R a) in F.
    assert (I : In a (b :: l')).
    { apply (proj1 (filter_In (sameScore (score a)) a (b :: l'))).
      cbn [filter]. rewrite <- F. left. reflexivity. }
    inversion Sb as [| ? ? _ Hb]; subst.
    destruct I as [<- | I].
    - apply Qle_refl.
    - rewrite Forall_forall in Hb. apply (Hb a I). }
  induction l1 as [| a l1 IH]; intros l2 S1 S2 F.
  - destruct l2 as [| b l2]; [reflexivity |].
    specialize (F (score b)). cbn [filter] in F. rewrite (R b) in F.
    discriminate.
  - destruct l2 as [| b l2].
    + specialize (F (score a)). cbn [filter] in F. rewrite (R a) in F.
      discriminate.
    + assert (Eab : score b == score a).
      { apply Qle_antisym.
        - apply (Top b a l2 l1); [symmetry; apply F | exact S1].
        - apply (Top a b l1 l2); [apply F | exact S2]. }
      assert (a = b) as <-.
      { pose proof (F (score a)) as Fa. cbn [filter] in Fa.
        rewrite (R a) in Fa.
        assert (sameScore (score a) b = true) as Sb
            by (apply Qeq_bool_iff; exact Eab).
        rewrite Sb in Fa. congruence. }
      f_equal. inversion S1; subst. inversion S2; subst.
      apply IH; try assumption.
      intros v. specialize (F v). cbn [filter] in F.
      destruct (sameScore v a); congruence.
Qed.

(** The budget loop keeps a prefix. *)
Lemma feed_firstn (l : list Scored) :
  forall (foodLeft : Z) (survivors : list Scored),
    feed foodLeft survivors l = (survivors ++ firstn (Z.to_nat foodLeft) l)%list.
Proof.
  induction l as [| x l IH]; intros foodLeft survivors; cbn [feed].
  - rewrite firstn_nil, app_nil_r. reflexivity.
  - destruct (0 <? foodLeft)%Z eqn:E.
    + apply Z.ltb_lt in E. rewrite IH.
      replace (Z.to_nat foodLeft) with (S (Z.to_nat (foodLeft - 1))) by lia.
      cbn [firstn]. rewrite <- app_assoc. reflexivity.
    + apply Z.ltb_ge in E.
      replace (Z.to_nat foodLeft) with O by lia.
      rewrite IH. replace (Z.to_nat foodLeft) with O by lia.
      cbn [firstn]. reflexivity.
Qed.

(** ** Roulette-wheel selection *)

Lemma Qle_bool_false (x y : Q) : Qle_bool x y = false -> y < x.
Proof.
  intros E. destruct (Qlt_le_dec y x) as [L | G]; [exact L |].
  apply Qle_bool_iff in G. congruence.
Qed.

Lemma sumFrom_ge (l : list Scored) :
  Forall (fun p => 0 < score p) l -> forall acc, acc <= sumFrom acc l.
Proof.
  induction 1 as [| p l Hp _ IH]; intros acc; cbn.
  - lra.
  - specialize (IH (acc + score p)). unfold sumFrom in IH. lra.
Qed.

Lemma totalScore_pos (p : Scored) (l : list Scored) :
  Forall (fun p => 0 < score p) (p :: l) -> 0 < totalScore (p :: l).
Proof.
  intros H. inversion H as [| ? ? Hp Hl]; subst.
  unfold totalScore. cbn [fold_left].
  pose proof (sumFrom_ge l Hl (0 + score p)) as G. unfold sumFrom in G. lra.
Qed.

(** When some prefix sum reaches [pick], the walk stops at the first such
    prefix and returns its last element. *)
Lemma roulette_first (l : list Scored) :
  forall (pick acc : Q) (parent : Scored),
    (exists j, (j < List.length l)%nat /\ pick <= sumFrom acc (firstn (S j) l)) ->
    exists k,
      nth_error l k = Some (roulette pick acc parent l) /\
      pick <= sumFrom acc (firstn (S k) l) /\
      forall j, (j < k)%nat -> sumFrom acc (firstn (S j) l) < pick.
Proof.
  induction l as [| p l IH]; intros pick acc parent [j [Hj Hp]].
  - cbn in Hj. lia.
  - cbn [roulette]. destruct (Qle_bool pick (acc + score p)) eqn:E.
    + exists O. apply Qle_bool_iff in E. repeat split.
      * exact E.
      * intros j' Hj'. lia.
    + apply Qle_bool_false in E.
      destruct j as [| j].
      * cbn in Hp. lra.
      * destruct (IH pick (acc + score p) parent) as [k [Hk [Hle Hfirst]]].
        { exists j. split; [cbn in Hj; lia | exact Hp]. }
        exists (S k). repeat split.
        -- exact Hk.
        -- exact Hle.
        -- intros [| j'] Hj'; [exact E |].
           apply Hfirst. lia.
Qed.

Lemma In_firstn {A : Type} (n : nat) (l : list A) (x : A) :
  In x (firstn n l) -> In x l.
Proof.
  intros H. rewrite <- (firstn_skipn n l). apply in_or_app. left. exact H.
Qed.

(** ** Draws and array reads *)

Lemma Qfloor_between (x : Q) (z : Z) :
  inject_Z z <= x -> x < inject_Z (z + 1) -> Qfloor x = z.
Proof.
  intros L U.
  pose proof (Qfloor_le x) as F. pose proof (Qlt_floor x) as G.
  assert (Qfloor x < z + 1)%Z by (rewrite Zlt_Qlt; lra).
  assert (z < Qfloor x + 1)%Z by (rewrite Zlt_Qlt; lra).
  lia.
Qed.



(** [Math.floor(r * 3)] for a draw [r] in [0,1) is 0, 1 or 2 by thirds. *)
Lemma floor_thirds (r : Q) :
  0 <= r < 1 ->
  (r < (1 # 3) /\ Qfloor (r * 3) = 0%Z) \/
  ((1 # 3) <= r < (2 # 3) /\ Qfloor (r * 3) = 1%Z) \/
  ((2 # 3) <= r /\ Qfloor (r * 3) = 2%Z).
Proof.
  intros [R0 R1].
  destruct (Qlt_le_dec r ((1 # 3))) as [A | A].
  - left. split; [exact A |].
    apply Qfloor_between; [change (0 <= r * 3) | change (r * 3 < 1)]; lra.
  - destruct (Qlt_le_dec r ((2 # 3))) as [B | B].
    + right; left. split; [split; assumption |].
      apply Qfloor_between; [change (1 <= r * 3) | change (r * 3 < 2)]; lra.
    + right; right. split; [exact B |].
      apply Qfloor_between; [change (2 <= r * 3) | change (r * 3 < 3)]; lra.
Qed.

Lemma validTrait_cases (t : Trait) :
  validTrait t <->
  t = Some "Small"%string \/ t = Some "Medium"%string \/ t = Some "Large"%string.
Proof.
  destruct t as [name |]; cbn; split.
  - intros [<- | [<- | [<- | []]]]; auto.
  - intros [E | [E | E]]; injection E as <-; auto.
  - intros [].
  - intros [E | [E | E]]; discriminate.
Qed.

Lemma index_TRAITS_valid (r : Q) :
  0 <= r < 1 -> validTrait (index TRAITS (Qfloor (r * 3))).
Proof.
  intros U.
  destruct (floor_thirds r U) as [[_ ->] | [[_ ->] | [_ ->]]];
    apply validTrait_cases; cbn; auto.
Qed.

Lemma roulette_In (l : list Scored) :
  forall (pick acc : Q) (parent : Scored),
    roulette pick acc parent l = parent \/ In (roulette pick acc parent l) l.
Proof.
  induction l as [| p l IH]; intros pick acc parent; cbn [roulette].
  - left. reflexivity.
  - destruct (Qle_bool pick (acc + score p)).
    + right. left. reflexivity.
    + destruct (IH pick (acc + score p) parent) as [E | I].
      * left. exact E.
      * right. right. exact I.
Qed.

(** ** The generation step *)

Section EngineProperties.

Variable rnd : nat -> Q.

(** Scoring keeps the organisms, in order, and gives each the product of
    its fitness and a noise factor made from one draw. *)
Lemma scoreOrganism_orgs (e : Env) (l : list Organism) :
  forall i, map org (fst (mapM (scoreOrganism rnd e) l i)) = l.
Proof.
  induction l as [| o l IH]; intros i; [reflexivity |].
  cbn [mapM]. unfold bind at 1. unfold scoreOrganism at 1.
  unfold bind at 1. unfold random, ret at 1. unfold bind.
  specialize (IH (S i)).
  destruct (mapM (scoreOrganism rnd e) l (S i)) as [ys j].
  cbn in *. rewrite IH. reflexivity.
Qed.

Lemma scoreOrganism_scores (e : Env) (l : list Organism) :
  forall i,
    Forall (fun x => exists k : nat,
                score x = fitnessForTrait (trait (org x)) e * (0.7 + rnd k * 0.6))
           (fst (mapM (scoreOrganism rnd e) l i)).
Proof.
  induction l as [| o l IH]; intros i; [constructor |].
  cbn [mapM]. unfold bind at 1. unfold scoreOrganism at 1.
  unfold bind at 1. unfold random, ret at 1. unfold bind.
  specialize (IH (S i)).
  destruct (mapM (scoreOrganism rnd e) l (S i)) as [ys j].
  cbn in *. constructor; [| exact IH].
  exists i. reflexivity.
Qed.

Lemma survivorsOf_eq (s : State) (i : nat) :
  fst (survivorsOf rnd s i)
  = firstn (Z.to_nat (foodPerGen s)) (sort (fst (scoredOf rnd s i))).
Proof.
  unfold survivorsOf, bind, ret.
  destruct (scoredOf rnd s i) as [scored j]. cbn [fst].
  apply feed_firstn.
Qed.

(** C3: the survivors of the food stage are the first
    [min(foodPerGen, population.length)] elements of the scored population
    in descending order of score (the one stable descending
    rearrangement of the scored organisms, which are the population's in
    order); fewer than
    [foodPerGen] survive only when the population is smaller than
    [foodPerGen], and all survive when [foodPerGen] is at least the
    population's length. *)
Theorem survivors_are_top_scorers (s : State) (i : nat) :
  let scored := fst (scoredOf rnd s i) in
  let ranked := sort scored in
  let survivors := fst (survivorsOf rnd s i) in
  let n := Z.of_nat (List.length (population s)) in
  map org scored = population s /\
  Permutation ranked scored /\
  StronglySorted desc ranked /\
  (forall v, filter (sameScore v) ranked
             = filter (sameScore v) scored) /\
  (forall ranked',
      StronglySorted desc ranked' ->
      (forall v, filter (sameScore v) ranked' = filter (sameScore v) scored) ->
      ranked' = ranked) /\
  survivors = firstn (Z.to_nat (Z.min (foodPerGen s) n)) ranked /\
  Z.of_nat (List.length survivors) = Z.max 0 (Z.min (foodPerGen s) n) /\
  ((Z.of_nat (List.length survivors) < foodPerGen s)%Z -> (n < foodPerGen s)%Z) /\
  ((n <= foodPerGen s)%Z -> survivors = ranked).
Proof.
  intros scored ranked survivors n.
  assert (Hm : map org scored = population s)
    by apply scoreOrganism_orgs.
  assert (Hlen : List.length ranked = List.length (population s)).
  { unfold ranked. rewrite (Permutation_length (sort_perm scored)).
    rewrite <- Hm. symmetry. apply length_map. }
  assert (Hs : survivors = firstn (Z.to_nat (foodPerGen s)) ranked)
    by apply survivorsOf_eq.
  assert (Hs' : survivors = firstn (Z.to_nat (Z.min (foodPerGen s) n)) ranked).
  { rewrite Hs. destruct (Z.le_ge_cases (foodPerGen s) n) as [L | G].
    - rewrite Z.min_l by exact L. reflexivity.
    - rewrite Z.min_r by exact G. unfold n. rewrite Nat2Z.id.
      rewrite <- Hlen. rewrite firstn_all.
      apply firstn_all2. lia. }
  assert (Hl : Z.of_nat (List.length survivors) = Z.max 0 (Z.min (foodPerGen s) n)).
  { rewrite Hs'. rewrite length_firstn. rewrite Hlen. unfold n. lia. }
  repeat split.
  - exact Hm.
  - apply sort_perm.
  - apply sort_sorted.
  - intros v. apply sort_stable.
  - intros ranked' S' F'. apply sorted_stable_unique.
    + exact S'.
    + apply sort_sorted.
    + intros v. rewrite F'. symmetry. apply sort_stable.
  - exact Hs'.
  - exact Hl.
  - rewrite Hl. lia.
  - intros G. rewrite Hs. apply firstn_all2. rewrite Hlen. fold n. lia.
Qed.

(** *** Reproduction draws *)

(** Every draw lies in [0,1), as [Math.random()] promises. *)
Hypothesis rnd_unit : forall n, 0 <= rnd n < 1.

Lemma filterM_In {A : Type} (f : A -> M bool) (l : list A) :
  forall i x, In x (fst (filterM f l i)) -> In x l.
Proof.
  induction l as [| a l IH]; intros i x; [cbn; auto |].
  cbn [filterM]. unfold bind at 1. destruct (f a i) as [keep j].
  unfold bind at 1. specialize (IH j x).
  destruct (filterM f l j) as [ys j']. unfold ret. cbn [fst] in *.
  destruct keep; cbn; intuition.
Qed.

(** The members of the pool are scored organisms of the population. *)
Lemma afterPredationOf_In (s : State) (i : nat) (x : Scored) :
  In x (fst (afterPredationOf rnd s i)) -> In x (fst (scoredOf rnd s i)).
Proof.
  unfold afterPredationOf. unfold bind at 1.
  pose proof (survivorsOf_eq s i) as E.
  destruct (survivorsOf rnd s i) as [survivors j]. cbn [fst] in E.
  intros H. apply filterM_In in H. rewrite E in H.
  apply In_firstn in H.
  apply (Permutation_in _ (sort_perm _)) in H. exact H.
Qed.

Lemma scoredOf_positive (s : State) (i : nat) :
  Forall (fun p => 0 < score p) (fst (scoredOf rnd s i)).
Proof.
  unfold scoredOf.
  eapply Forall_impl; [| apply scoreOrganism_scores].
  intros x [k ->].
  pose proof (fitnessForTrait_floor (trait (org x)) (env s)) as F.
  pose proof (rnd_unit k) as [R0 _].
  apply Qmult_lt_0_compat; lra.
Qed.

Lemma afterPredationOf_positive (s : State) (i : nat) :
  Forall (fun p => 0 < score p) (fst (afterPredationOf rnd s i)).
Proof.
  apply Forall_forall. intros x Hx. apply afterPredationOf_In in Hx.
  pose proof (scoredOf_positive s i) as P. rewrite Forall_forall in P.
  apply P, Hx.
Qed.

(** The parent of a reproduction is the one the walk returns for the
    pick made from the pass's first draw. *)
Lemma breed_trait (first : Scored) (pool : list Scored) (i : nat) :
  trait (fst (breed rnd first pool i))
  = fst (mutateTrait rnd
           (trait (org (roulette (rnd i * totalScore pool) 0 first pool)))
           (S i)).
Proof.
  unfold breed. unfold bind at 1. unfold random at 1. unfold bind at 1.
  destruct (mutateTrait rnd _ (S i)) as [t j].
  reflexivity.
Qed.

(** C4: for a non-empty pool left by predation and a draw [r] in [0,1),
    every member's score is positive (fitness at least 0.1 times noise at
    least 0.7), the total is positive, the pick [r * totalScore] lies in
    [0, totalScore], and the walk returns the first member whose
    cumulative score reaches the pick; that parent's score is positive. *)
Theorem roulette_parent_well_defined (s : State) (i : nat) (r : Q)
    (first : Scored) (rest : list Scored) :
  0 <= r < 1 ->
  fst (afterPredationOf rnd s i) = first :: rest ->
  let pool := first :: rest in
  let pick := r * totalScore pool in
  let parent := roulette pick 0 first pool in
  Forall (fun p => exists k : nat,
              0.1 <= fitnessForTrait (trait (org p)) (env s) /\
              0.7 <= 0.7 + rnd k * 0.6 /\
              score p = fitnessForTrait (trait (org p)) (env s)
                        * (0.7 + rnd k * 0.6)) pool /\
  Forall (fun p => 0 < score p) pool /\
  0 < totalScore pool /\
  0 <= pick <= totalScore pool /\
  (exists k, nth_error pool k = Some parent /\
             pick <= cumulative pool (S k) /\
             forall j, (j < k)%nat -> cumulative pool (S j) < pick) /\
  In parent pool /\
  0 < score parent /\
  (forall j,
      trait (fst (breed rnd first pool j))
      = fst (mutateTrait rnd
               (trait (org (roulette (rnd j * totalScore pool) 0 first pool)))
               (S j))).
Proof.
  intros [R0 R1] E pool pick parent.
  assert (P : Forall (fun p => 0 < score p) pool).
  { unfold pool. rewrite <- E. apply afterPredationOf_positive. }
  assert (T : 0 < totalScore pool) by (apply totalScore_pos, P).
  assert (K : 0 <= pick <= totalScore pool).
  { unfold pick. split.
    - apply Qmult_le_0_compat; lra.
    - rewrite <- (Qmult_1_l (totalScore pool)) at 2.
      apply Qmult_le_compat_r; lra. }
  assert (W : exists k, nth_error pool k = Some parent /\
                        pick <= cumulative pool (S k) /\
                        forall j, (j < k)%nat -> cumulative pool (S j) < pick).
  { apply roulette_first. exists (List.length rest). split.
    - cbn. lia.
    - replace (firstn (S (List.length rest)) pool) with pool.
      + apply K.
      + symmetry. apply firstn_all2. cbn. lia. }
  assert (I : In parent pool).
  { destruct W as [k [Hk _]]. eapply nth_error_In, Hk. }
  repeat split; try assumption; try apply K.
  - apply Forall_forall. intros p Hp.
    assert (Hs : In p (fst (scoredOf rnd s i))).
    { apply afterPredationOf_In. rewrite E. exact Hp. }
    pose proof (scoreOrganism_scores (env s) (population s) i) as Sc.
    rewrite Forall_forall in Sc. destruct (Sc p Hs) as [k Hk].
    exists k. repeat split.
    + apply fitnessForTrait_floor.
    + pose proof (rnd_unit k). lra.
    + exact Hk.
  - rewrite Forall_forall in P. apply P, I.
  - intros j. apply breed_trait.
Qed.

(** *** Mutation *)

Lemma mutateTrait_unfold (t : Trait) (i : nat) :
  mutateTrait rnd t i =
  if Qltb (rnd i) 0.06 then
    if t === "Small" then
      ((if Qltb (rnd (S i)) 0.5 then Some "Small" else Some "Medium")%string,
       S (S i))
    else if t === "Medium" then
      (index ["Small"; "Medium"; "Large"]%string (Qfloor (rnd (S i) * 3)),
       S (S i))
    else
      ((if Qltb (rnd (S i)) 0.5 then Some "Medium" else Some "Large")%string,
       S (S i))
  else (t, S i).
Proof.
  unfold mutateTrait, bind, random, ret.
  destruct (Qltb (rnd i) 0.06); [| reflexivity].
  destruct (t === "Small"); [reflexivity |].
  destruct (t === "Medium"); reflexivity.
Qed.


Lemma mutateTrait_child (t : Trait) (i : nat) :
  fst (mutateTrait rnd t i) =
  if Qltb (rnd i) 0.06 then
    if t === "Small" then
      (if Qltb (rnd (S i)) 0.5 then Some "Small" else Some "Medium")%string
    else if t === "Medium" then
      index ["Small"; "Medium"; "Large"]%string (Qfloor (rnd (S i) * 3))
    else
      (if Qltb (rnd (S i)) 0.5 then Some "Medium" else Some "Large")%string
  else t.
Proof.
  rewrite mutateTrait_unfold. destruct (Qltb (rnd i) 0.06); [| reflexivity].
  destruct (t === "Small"); [reflexivity |].
  destruct (t === "Medium"); reflexivity.
Qed.


(** *** Size and traits of the new population *)

Lemma bind_run {A B : Type} (m : M A) (k : A -> M B) (i : nat) :
  bind m k i = k (fst (m i)) (snd (m i)).
Proof. unfold bind. destruct (m i). reflexivity. Qed.

Lemma newOrganism_unfold (i : nat) :
  newOrganism rnd i
  = (mkOrganism (rnd i) (index TRAITS (Qfloor (rnd (S i) * 3))) 0, S (S i)).
Proof. reflexivity. Qed.

Lemma randomPopulation_spec (size : nat) :
  forall i,
    List.length (fst (randomPopulation rnd size i)) = size /\
    Forall validOrganism (fst (randomPopulation rnd size i)).
Proof.
  induction size as [| n IH]; intros i; cbn [randomPopulation].
  - split; [reflexivity | constructor].
  - rewrite !bind_run. unfold ret. cbn [fst].
    destruct (IH (snd (newOrganism rnd i))) as [L V]. split.
    + cbn [List.length]. rewrite L. reflexivity.
    + constructor; [| exact V].
      rewrite newOrganism_unfold. unfold validOrganism. cbn [fst trait].
      apply index_TRAITS_valid, rnd_unit.
Qed.

Lemma mutateTrait_valid (t : Trait) (i : nat) :
  validTrait t -> validTrait (fst (mutateTrait rnd t i)).
Proof.
  intros V. rewrite mutateTrait_unfold.
  destruct (Qltb (rnd i) 0.06); [| exact V].
  destruct (t === "Small").
  - destruct (Qltb (rnd (S i)) 0.5); cbn; auto.
  - destruct (t === "Medium").
    + cbn [fst]. apply index_TRAITS_valid, rnd_unit.
    + destruct (Qltb (rnd (S i)) 0.5); cbn; auto.
Qed.

Lemma breed_valid (first : Scored) (rest : list Scored) (i : nat) :
  Forall (fun p => validOrganism (org p)) (first :: rest) ->
  validOrganism (fst (breed rnd first (first :: rest) i)).
Proof.
  intros V. unfold validOrganism. rewrite breed_trait.
  apply mutateTrait_valid. rewrite Forall_forall in V.
  destruct (roulette_In (first :: rest) (rnd i * totalScore (first :: rest))
              0 first) as [-> | I].
  - apply V. left. reflexivity.
  - apply V, I.
Qed.



(** The loop ends with [missing] more organisms, or with none more when
    the pool is empty. *)
Lemma reproduce_length (missing : nat) (pool : list Scored) :
  forall (offspring : list Organism) (i : nat),
    List.length (fst (reproduce rnd missing pool offspring i))
    = (List.length offspring
       + match pool with [] => 0 | _ :: _ => missing end)%nat.
Proof.
  induction missing as [| n IH]; intros offspring i.
  - cbn. destruct pool; lia.
  - cbn [reproduce]. destruct pool as [| first rest].
    + cbn. lia.
    + rewrite bind_run. rewrite IH, length_app. cbn. lia.
Qed.

Lemma reproduce_valid (missing : nat) (pool : list Scored) :
  Forall (fun p => validOrganism (org p)) pool ->
  forall (offspring : list Organism) (i : nat),
    Forall validOrganism offspring ->
    Forall validOrganism (fst (reproduce rnd missing pool offspring i)).
Proof.
  intros V. induction missing as [| n IH]; intros offspring i Vo.
  - exact Vo.
  - cbn [reproduce]. destruct pool as [| first rest]; [exact Vo |].
    rewrite bind_run. apply IH.
    apply Forall_app. split; [exact Vo |].
    constructor; [apply breed_valid, V | constructor].
Qed.

Lemma afterPredationOf_valid (s : State) (i : nat) :
  Forall validOrganism (population s) ->
  Forall (fun p => validOrganism (org p)) (fst (afterPredationOf rnd s i)).
Proof.
  intros V. apply Forall_forall. intros x Hx.
  apply afterPredationOf_In in Hx.
  rewrite Forall_forall in V. apply V.
  rewrite <- (scoreOrganism_orgs (env s) (population s) i).
  apply in_map. exact Hx.
Qed.

Lemma offspringOf_length (s : State) (i : nat) :
  List.length (fst (offspringOf rnd s i))
  = match fst (afterPredationOf rnd s i) with
    | [] => O
    | _ :: _ => populationSize s
    end.
Proof.
  unfold offspringOf. rewrite bind_run. apply reproduce_length.
Qed.

Lemma offspringOf_valid (s : State) (i : nat) :
  Forall validOrganism (population s) ->
  Forall validOrganism (fst (offspringOf rnd s i)).
Proof.
  intros V. unfold offspringOf. rewrite bind_run.
  apply reproduce_valid; [apply afterPredationOf_valid, V | constructor].
Qed.

(** The state committed after [simulateGeneration]. *)
Lemma simulateGeneration_normal (s : State) (i : nat) :
  exists s', fst (simulateGeneration rnd s i) = Normal s' /\
    let offspring := fst (offspringOf rnd s i) in
    let j := snd (offspringOf rnd s i) in
    let short := (List.length offspring <? populationSize s)%nat in
    populationSize s' = populationSize s /\
    population s' =
      (if short
       then offspring ++
            fst (randomPopulation rnd (populationSize s - List.length offspring) j)
       else offspring)%list /\
    message s' =
      (if short
       then String.append "Simulating generation..." weakened
       else "Simulating generation..."%string) /\
    generation s' = (generation s + 1)%Z /\
    env s' = env s /\
    foodPerGen s' = foodPerGen s /\
    history s' =
      (history s ++
       [mkRecord (generation s) (traitCounts (population s)) (env s)])%list /\
    running s' = true.
Proof.
  unfold simulateGeneration. rewrite !bind_run. unfold ret. cbn [fst].
  eexists. split; [reflexivity |]. cbn zeta.
  cbn [populationSize population message generation env foodPerGen history
       running].
  destruct (List.length (fst (offspringOf rnd s i)) <? populationSize s)%nat;
    cbn [fst]; repeat split.
Qed.

Lemma simulateGeneration_length (s s' : State) (i : nat) :
  fst (simulateGeneration rnd s i) = Normal s' ->
  List.length (population s') = populationSize s.
Proof.
  intros E. destruct (simulateGeneration_normal s i) as [s'' [E' H]].
  rewrite E in E'. injection E' as <-.
  destruct H as [_ [P _]]. rewrite P.
  pose proof (offspringOf_length s i) as L.
  destruct (Nat.ltb_spec (List.length (fst (offspringOf rnd s i)))
              (populationSize s)) as [Lt | Ge].
  - rewrite length_app.
    rewrite (proj1 (randomPopulation_spec _ _)). lia.
  - destruct (fst (afterPredationOf rnd s i)); lia.
Qed.

Lemma simulateGeneration_valid (s s' : State) (i : nat) :
  Forall validOrganism (population s) ->
  fst (simulateGeneration rnd s i) = Normal s' ->
  Forall validOrganism (population s').
Proof.
  intros V E. destruct (simulateGeneration_normal s i) as [s'' [E' H]].
  rewrite E in E'. injection E' as <-.
  destruct H as [_ [P _]]. rewrite P.
  pose proof (offspringOf_valid s i V) as Vo.
  destruct (List.length (fst (offspringOf rnd s i)) <? populationSize s)%nat;
    [| exact Vo].
  apply Forall_app. split; [exact Vo |].
  apply randomPopulation_spec.
Qed.

Lemma generations_wellFormed (n : nat) :
  forall (s : State) (i : nat),
    wellFormed s ->
    exists s', fst (generations rnd n s i) = Normal s' /\
               populationSize s' = populationSize s /\
               wellFormed s'.
Proof.
  induction n as [| n IH]; intros s i W.
  - exists s. cbn. auto.
  - cbn [generations]. rewrite bind_run.
    destruct (simulateGeneration_normal s i) as [s1 [E H]].
    rewrite E.
    destruct (IH (generationComplete s1) (snd (simulateGeneration rnd s i)))
      as [s' [E' [Hp W']]].
    + destruct W as [_ V]. destruct H as [Hp _]. split; cbn.
      * rewrite Hp. apply (simulateGeneration_length s s1 i E).
      * apply (simulateGeneration_valid s s1 i V E).
    + exists s'. split; [exact E' |]. split; [| exact W'].
      rewrite Hp. cbn. apply H.
Qed.

(** C1: [simulateGeneration] completes normally and commits a population
    of exactly [populationSize] organisms (whatever the state it starts
    from); when the organisms it starts from have traits among Small,
    Medium and Large, so have all those it commits; and from a state whose
    population has the configured size and such traits, any number of
    successive generations leads to a state of the same kind with the
    same [populationSize]. *)
Theorem population_invariant :
  (forall (s : State) (i : nat),
      exists s', fst (simulateGeneration rnd s i) = Normal s' /\
                 populationSize s' = populationSize s /\
                 List.length (population s') = populationSize s /\
                 (Forall validOrganism (population s) ->
                  Forall validOrganism (population s'))) /\
  (forall (s : State) (i : nat),
      wellFormed s ->
      exists s', fst (simulateGeneration rnd s i) = Normal s' /\
                 wellFormed s') /\
  (forall (n : nat) (s : State) (i : nat),
      wellFormed s ->
      exists s', fst (generations rnd n s i) = Normal s' /\
                 populationSize s' = populationSize s /\
                 List.length (population s') = populationSize s /\
                 Forall validOrganism (population s')).
Proof.
  split; [| split].
  - intros s i. destruct (simulateGeneration_normal s i) as [s' [E H]].
    exists s'. split; [exact E |]. split; [apply H |]. split.
    + apply (simulateGeneration_length s s' i E).
    + intros V. apply (simulateGeneration_valid s s' i V E).
  - intros s i [L V]. destruct (simulateGeneration_normal s i) as [s' [E H]].
    exists s'. split; [exact E |]. split.
    + rewrite (proj1 H). apply (simulateGeneration_length s s' i E).
    + apply (simulateGeneration_valid s s' i V E).
  - intros n s i W.
    destruct (generations_wellFormed n s i W) as [s' [E [Hp [L V]]]].
    exists s'. split; [exact E |]. split; [exact Hp |]. split; [| exact V].
    rewrite <- Hp. exact L.
Qed.

(** *** History and status message *)

(** C6: [simulateGeneration] appends to the history one record, made of
    the generation number before the increment, the trait counts of the
    population before the step and the environment's values; the entries
    already there stay as they are, each at its index, and the length
    grows by one. *)
Theorem history_append_only (s : State) (i : nat) :
  exists s', fst (simulateGeneration rnd s i) = Normal s' /\
    history s' =
      (history s ++
       [mkRecord (generation s) (traitCounts (population s)) (env s)])%list /\
    List.length (history s') = S (List.length (history s)) /\
    (forall k, (k < List.length (history s))%nat ->
               nth_error (history s') k = nth_error (history s) k) /\
    firstn (List.length (history s)) (history s') = history s /\
    generation s' = (generation s + 1)%Z.
Proof.
  destruct (simulateGeneration_normal s i) as [s' [E H]].
  exists s'. split; [exact E |].
  destruct H as [_ [_ [_ [G [_ [_ [Hh _]]]]]]].
  rewrite Hh. repeat split.
  - rewrite length_app. cbn. lia.
  - intros k Hk. apply nth_error_app1, Hk.
  - rewrite firstn_app, Nat.sub_diag, firstn_all. cbn. apply app_nil_r.
  - exact G.
Qed.

(** C7: when the reproduction loop leaves fewer offspring than
    [populationSize] (which happens only when no survivor is left after
    predation), [simulateGeneration] still completes normally: the new
    population is the offspring followed by
    [populationSize - offspring.length] organisms made by
    [randomPopulation], it has exactly [populationSize] members, and the
    status message carries the notice "Population weakened; random
    immigrants arrived." *)
Theorem replenishment (s : State) (i : nat) :
  let offspring := fst (offspringOf rnd s i) in
  let j := snd (offspringOf rnd s i) in
  (List.length offspring < populationSize s)%nat ->
  fst (afterPredationOf rnd s i) = [] /\
  exists s' immigrants,
    fst (simulateGeneration rnd s i) = Normal s' /\
    immigrants
    = fst (randomPopulation rnd (populationSize s - List.length offspring) j) /\
    List.length immigrants = (populationSize s - List.length offspring)%nat /\
    Forall validOrganism immigrants /\
    population s' = (offspring ++ immigrants)%list /\
    List.length (population s') = populationSize s /\
    message s' =
      "Simulating generation... Population weakened; random immigrants arrived."%string.
Proof.
  intros offspring j Short. split.
  - pose proof (offspringOf_length s i) as L. fold offspring in L.
    destruct (fst (afterPredationOf rnd s i)); [reflexivity | lia].
  - destruct (simulateGeneration_normal s i) as [s' [E H]].
    exists s'. eexists. split; [exact E |]. split; [reflexivity |].
    destruct (randomPopulation_spec
                (populationSize s - List.length offspring) j) as [L V].
    split; [exact L |]. split; [exact V |].
    destruct H as [_ [P [Hm _]]]. fold offspring j in P, Hm.
    apply Nat.ltb_lt in Short. rewrite Short in P, Hm.
    split; [exact P |]. split; [| exact Hm].
    apply (simulateGeneration_length s s' i E).
Qed.

(** When the loop fills the population no organism is added and the
    message carries no notice. *)
Lemma no_replenishment (s : State) (i : nat) :
  (populationSize s <= List.length (fst (offspringOf rnd s i)))%nat ->
  exists s', fst (simulateGeneration rnd s i) = Normal s' /\
             population s' = fst (offspringOf rnd s i) /\
             message s' = "Simulating generation..."%string.
Proof.
  intros Full. destruct (simulateGeneration_normal s i) as [s' [E H]].
  exists s'. split; [exact E |].
  destruct H as [_ [P [Hm _]]].
  apply Nat.ltb_ge in Full. rewrite Full in P, Hm. split; assumption.
Qed.

End EngineProperties.

(** ** Scenario presets *)

(** [quickScenario] with a name that is no preset completes normally: it
    does not reject the name. *)
Lemma quickScenario_unknown_name_no_error :
  ~ In "Ice age"%string scenarioNames /\
  quickScenario "Ice age" sampleState
  = Normal (setMessage "Scenario set: Ice age" sampleState) /\
  ~ rejectsUnknownScenarios.
Proof.
  assert (N : ~ In "Ice age"%string scenarioNames).
  { cbn. intros [H | [H | [H | [H | []]]]]; discriminate. }
  split; [exact N |]. split; [reflexivity |].
  intros R. destruct (R "Ice age"%string sampleState N) as [e E].
  discriminate.
Qed.

(** C8, as the handler has it: "High predators" sets the environment to
    the seed size "mixed" with predator strength 0.6 and touches no other
    cell but the message; a name outside the four presets leaves the
    environment as it was, and in both cases the handler completes normally
    with the message "Scenario set: " followed by the name. *)
Theorem quickScenario_spec (s : State) :
  quickScenario "High predators" s
  = Normal (setMessage "Scenario set: High predators"
              (setEnv (mkEnv "mixed" 0.6) s)) /\
  (forall name, ~ In name scenarioNames ->
     quickScenario name s
     = Normal (setMessage (String.append "Scenario set: " name) s)).
Proof.
  split; [reflexivity |].
  intros name N. unfold quickScenario.
  assert (forall x, In x scenarioNames -> String.eqb name x = false) as F.
  { intros x Hx. apply String.eqb_neq. intros ->. apply N, Hx. }
  rewrite !F by (cbn; auto 6). reflexivity.
Qed.

(** ** The properties on sample runs *)

Lemma sampleRnd_unit : forall n, 0 <= sampleRnd n < 1.
Proof.
  intros n. unfold sampleRnd. destruct (Nat.even n); split;
    solve [reflexivity | vm_compute; discriminate].
Qed.

Lemma lowRnd_unit : forall n, 0 <= lowRnd n < 1.
Proof.
  intros n. unfold lowRnd. split; solve [reflexivity | vm_compute; discriminate].
Qed.

Lemma samplePopulation_valid : Forall validOrganism samplePopulation.
Proof.
  unfold samplePopulation. repeat constructor; apply validTrait_cases; cbn; auto.
Qed.

Lemma sampleState_wellFormed : wellFormed sampleState.
Proof. split; [reflexivity | exact samplePopulation_valid]. Qed.

Lemma population_invariant_witness :
  wellFormed sampleState /\
  exists s', fst (generations sampleRnd 3 sampleState 0%nat) = Normal s' /\
             populationSize s' = 6%nat /\
             List.length (population s') = 6%nat /\
             Forall validOrganism (population s').
Proof.
  split; [exact sampleState_wellFormed |].
  exact (proj2 (proj2 (population_invariant sampleRnd sampleRnd_unit))
           3%nat sampleState 0%nat sampleState_wellFormed).
Defined.

Lemma survivors_are_top_scorers_witness :
  (Z.of_nat (List.length (population sampleState)) <= foodPerGen sampleState)%Z /\
  fst (survivorsOf sampleRnd sampleState 0%nat)
  = sort (fst (scoredOf sampleRnd sampleState 0%nat)).
Proof.
  assert (H : (Z.of_nat (List.length (population sampleState))
               <= foodPerGen sampleState)%Z) by (vm_compute; discriminate).
  split; [exact H |].
  destruct (survivors_are_top_scorers sampleRnd sampleState 0%nat)
    as [_ [_ [_ [_ [_ [_ [_ [_ All]]]]]]]].
  exact (All H).
Defined.

Lemma roulette_parent_well_defined_witness :
  let pool := fst (afterPredationOf sampleRnd sampleState 0%nat) in
  let first := hd (mkScored (mkOrganism 0 None 0) 0) pool in
  0 <= 0.5 < 1 /\
  pool = first :: tl pool /\
  0 < score (roulette (0.5 * totalScore (first :: tl pool)) 0 first
               (first :: tl pool)).
Proof.
  intros pool first.
  assert (R : 0 <= 0.5 < 1) by (split; [vm_compute; discriminate | reflexivity]).
  assert (E : pool = first :: tl pool) by reflexivity.
  split; [exact R |]. split; [exact E |].
  destruct (roulette_parent_well_defined sampleRnd sampleRnd_unit sampleState
              0%nat 0.5 first (tl pool) R E)
    as [_ [_ [_ [_ [_ [_ [Pos _]]]]]]].
  exact Pos.
Defined.


Lemma history_append_only_witness :
  (0 < List.length (history secondState))%nat /\
  exists s', fst (simulateGeneration sampleRnd secondState 0%nat) = Normal s' /\
             nth_error (history s') 0 = nth_error (history secondState) 0 /\
             List.length (history s') = 2%nat /\
             generation s' = 3%Z.
Proof.
  assert (H : (0 < List.length (history secondState))%nat)
    by (apply Nat.ltb_lt; reflexivity).
  split; [exact H |].
  destruct (history_append_only sampleRnd secondState 0%nat)
    as [s' [E [_ [L [Old [_ G]]]]]].
  exists s'. split; [exact E |]. split; [exact (Old 0%nat H) |].
  split; [exact L | exact G].
Defined.

Lemma replenishment_witness :
  (List.length (fst (offspringOf lowRnd huntedState 0%nat))
   < populationSize huntedState)%nat /\
  exists s', fst (simulateGeneration lowRnd huntedState 0%nat) = Normal s' /\
             List.length (population s') = 6%nat /\
             message s' =
               "Simulating generation... Population weakened; random immigrants arrived."%string.
Proof.
  assert (Short : (List.length (fst (offspringOf lowRnd huntedState 0%nat))
                   < populationSize huntedState)%nat)
    by (apply Nat.ltb_lt; reflexivity).
  split; [exact Short |].
  destruct (replenishment lowRnd lowRnd_unit huntedState 0%nat Short)
    as [_ [s' [immigrants [E [_ [_ [_ [_ [L Msg]]]]]]]]].
  exists s'. split; [exact E |]. split; [exact L | exact Msg].
Defined.

Lemma quickScenario_spec_witness :
  ~ In "Ice age"%string scenarioNames /\
  quickScenario "Ice age" sampleState
  = Normal (setMessage "Scenario set: Ice age" sampleState).
Proof.
  assert (N : ~ In "Ice age"%string scenarioNames).
  { cbn. intros [H | [H | [H | [H | []]]]]; discriminate. }
  split; [exact N |].
  exact (proj2 (quickScenario_spec sampleState) "Ice age"%string N).
Defined.

(** * Further properties of the component *)

(** ** Trait counts *)

Lemma countTrait_fold (l : list Organism) :
  forall c,
    Small (fold_left countTrait l c)
    = (Small c + List.length (filter (fun o => trait o === "Small") l))%nat /\
    Medium (fold_left countTrait l c)
    = (Medium c + List.length (filter (fun o => trait o === "Medium") l))%nat /\
    Large (fold_left countTrait l c)
    = (Large c + List.length (filter (fun o => trait o === "Large") l))%nat.
Proof.
  induction l as [| o l IH]; intros c; cbn [fold_left filter].
  - cbn. lia.
  - destruct (IH (countTrait c o)) as [A [B C]]. rewrite A, B, C.
    unfold countTrait.
    destruct (trait o) as [name |]; cbn [is_str]; [| cbn; lia].
    destruct (String.eqb_spec name "Small") as [-> | N1]; [cbn; lia |].
    destruct (String.eqb_spec name "Medium") as [-> | N2]; [cbn; lia |].
    destruct (String.eqb_spec name "Large") as [-> | N3]; cbn; lia.
Qed.

Lemma filter_length_perm {A : Type} (f : A -> bool) (l l' : list A) :
  Permutation l l' -> List.length (filter f l) = List.length (filter f l').
Proof.
  induction 1 as [| x l l' _ IH | x y l | l l' l'' _ IH1 _ IH2]; cbn.
  - reflexivity.
  - destruct (f x); cbn; rewrite IH; reflexivity.
  - destruct (f x), (f y); reflexivity.
  - rewrite IH1. exact IH2.
Qed.

Lemma valid_partition (l : list Organism) :
  Forall validOrganism l ->
  (List.length (filter (fun o => trait o === "Small") l)
   + List.length (filter (fun o => trait o === "Medium") l)
   + List.length (filter (fun o => trait o === "Large") l))%nat
  = List.length l.
Proof.
  induction 1 as [| o l V _ IH]; [reflexivity |].
  cbn [filter List.length]. apply validTrait_cases in V.
  destruct V as [-> | [-> | ->]]; cbn; lia.
Qed.

Lemma traitCounts_total (l : list Organism) :
  Forall validOrganism l -> total (traitCounts l) = List.length l.
Proof.
  intros V. unfold traitCounts, total.
  destruct (countTrait_fold l (mkCounts 0 0 0)) as [A [B C]].
  cbn [Small Medium Large Nat.add] in A, B, C.
  rewrite A, B, C. apply valid_partition, V.
Qed.

(** X1: each field of [traitCounts] is the number of organisms of the
    population with that trait; the counts do not depend on the order of
    the population; and when every trait is one of the three names the
    counts add up to the population's length. *)
Theorem traitCounts_spec (l : list Organism) :
  Small (traitCounts l)
  = List.length (filter (fun o => trait o === "Small") l) /\
  Medium (traitCounts l)
  = List.length (filter (fun o => trait o === "Medium") l) /\
  Large (traitCounts l)
  = List.length (filter (fun o => trait o === "Large") l) /\
  (forall l', Permutation l l' -> traitCounts l = traitCounts l') /\
  (Forall validOrganism l -> total (traitCounts l) = List.length l).
Proof.
  unfold traitCounts.
  destruct (countTrait_fold l (mkCounts 0 0 0)) as [A [B C]].
  cbn [Small Medium Large Nat.add] in A, B, C.
  split; [exact A |]. split; [exact B |]. split; [exact C |]. split.
  - intros l' P.
    destruct (countTrait_fold l' (mkCounts 0 0 0)) as [A' [B' C']].
    cbn [Small Medium Large Nat.add] in A', B', C'.
    destruct (fold_left countTrait l (mkCounts 0 0 0)) as [a b c].
    destruct (fold_left countTrait l' (mkCounts 0 0 0)) as [a' b' c'].
    cbn [Small Medium Large] in *. subst.
    f_equal; apply filter_length_perm, P.
  - apply traitCounts_total.
Qed.

Lemma traitCounts_spec_witness :
  Forall validOrganism samplePopulation /\
  total (traitCounts samplePopulation) = 6%nat.
Proof.
  split; [exact samplePopulation_valid |].
  exact (proj2 (proj2 (proj2 (proj2 (traitCounts_spec samplePopulation))))
           samplePopulation_valid).
Defined.

(** ** Fitness outside the table *)

(** X2: whatever the trait and the seed size, a larger predator strength
    never gives a larger fitness (the floor included). *)
Theorem fitnessForTrait_antitone (t : Trait) (s : string) (p q : Q) :
  p <= q -> fitnessForTrait t (mkEnv s q) <= fitnessForTrait t (mkEnv s p).
Proof.
  intros H. unfold fitnessForTrait. cbn [seed predatorStrength].
  apply Q.max_le_compat_l.
  destruct (t === "Large"); [| destruct (t === "Small")];
    match goal with
    | |- ?b - _ <= ?b - _ => generalize b; intros b'; lra
    end.
Qed.

Lemma fitnessForTrait_antitone_witness :
  0.2 <= 0.6 /\
  fitnessForTrait (Some "Large"%string) (mkEnv "mixed" 0.6)
  <= fitnessForTrait (Some "Large"%string) (mkEnv "mixed" 0.2).
Proof.
  assert (H : 0.2 <= 0.6) by (vm_compute; discriminate).
  split; [exact H |].
  exact (fitnessForTrait_antitone (Some "Large"%string) "mixed" 0.2 0.6 H).
Defined.

(** X3: no input is rejected.  A seed size other than "small" and "mixed"
    is scored as "large"; a trait that is none of the three names
    ([undefined] included) gets the table value of Large with the penalty
    factor of Medium. *)
Theorem fitnessForTrait_fallbacks :
  (forall (t : Trait) (s : string) (p : Q),
      s <> "small"%string -> s <> "mixed"%string ->
      fitnessForTrait t (mkEnv s p) = fitnessForTrait t (mkEnv "large" p)) /\
  (forall (t : Trait) (s : Policy.seedSize) (p : Q),
      ~ validTrait t ->
      fitnessForTrait t (mkEnv (Policy.seedName s) p)
      = Qmax 0.1 (Policy.base s Policy.Large
                  - p * Policy.penaltyFactor Policy.Medium)).
Proof.
  split.
  - intros t s p N1 N2. unfold fitnessForTrait. cbn [seed predatorStrength].
    apply String.eqb_neq in N1, N2. rewrite N1, N2. reflexivity.
  - intros t s p N.
    assert ((t === "Small") = false /\ (t === "Medium") = false
            /\ (t === "Large") = false) as [E1 [E2 E3]].
    { destruct t as [name |]; cbn [is_str]; [| auto].
      repeat split; apply String.eqb_neq; intros ->; apply N; cbn; auto. }
    unfold fitnessForTrait. cbn [seed predatorStrength].
    rewrite E1, E2, E3. destruct s; reflexivity.
Qed.

Lemma fitnessForTrait_fallbacks_witness :
  "huge"%string <> "small"%string /\ "huge"%string <> "mixed"%string /\
  ~ validTrait None /\
  fitnessForTrait (Some "Small"%string) (mkEnv "huge" 0.2)
  = fitnessForTrait (Some "Small"%string) (mkEnv "large" 0.2) /\
  fitnessForTrait None (mkEnv "small" 0.2) = Qmax 0.1 (0.8 - 0.2 * 0.15).
Proof.
  assert (N1 : "huge"%string <> "small"%string) by discriminate.
  assert (N2 : "huge"%string <> "mixed"%string) by discriminate.
  assert (N3 : ~ validTrait None) by (intros []).
  split; [exact N1 |]. split; [exact N2 |]. split; [exact N3 |]. split.
  - exact (proj1 fitnessForTrait_fallbacks (Some "Small"%string) "huge"%string
             0.2 N1 N2).
  - exact (proj2 fitnessForTrait_fallbacks None Policy.small 0.2 N3).
Defined.

(** ** Food buttons *)

(** X4: the food budget never goes below 1 through its buttons: "- Food"
    always leaves it at 1 or more and does nothing at 1; from a budget of
    1 or more "+ Food" then "- Food" restores the state, and from 2 or more
    so does "- Food" then "+ Food". *)
Theorem food_buttons (s : State) :
  (1 <= foodPerGen (lessFood s))%Z /\
  (foodPerGen s = 1%Z -> lessFood s = s) /\
  ((1 <= foodPerGen s)%Z -> lessFood (moreFood s) = s) /\
  ((2 <= foodPerGen s)%Z -> moreFood (lessFood s) = s) /\
  ((1 <= foodPerGen s)%Z -> (1 <= foodPerGen (moreFood s))%Z).
Proof.
  destruct s as [g n p e f h m r].
  unfold lessFood, moreFood, setFoodPerGen. cbn [foodPerGen generation
    populationSize population env history message running].
  split; [lia |]. split; [| split; [| split]].
  - intros ->. reflexivity.
  - intros H. f_equal. lia.
  - intros H. f_equal. lia.
  - lia.
Qed.

Lemma food_buttons_witness :
  (1 <= foodPerGen sampleState)%Z /\ lessFood (moreFood sampleState) = sampleState.
Proof.
  assert (H : (1 <= foodPerGen sampleState)%Z) by (vm_compute; discriminate).
  split; [exact H |].
  exact (proj1 (proj2 (proj2 (food_buttons sampleState))) H).
Defined.

(** ** Scenario presets *)

Lemma scenarioNames_cases (name : string) :
  In name scenarioNames ->
  name = "Drought (small seeds)"%string \/ name = "Abundant large seeds"%string \/
  name = "High predators"%string \/ name = "Mixed stable"%string.
Proof.
  cbn. intros [H | [H | [H | [H | []]]]]; auto.
Qed.

Lemma quickScenario_preset (name : string) (s : State) :
  In name scenarioNames ->
  exists e, In e knownEnvs /\
            forall s0, quickScenario name s0
                       = Normal (setMessage (String.append "Scenario set: " name)
                                   (setEnv e s0)).
Proof.
  intros H. apply scenarioNames_cases in H.
  destruct H as [-> | [-> | [-> | ->]]].
  - exists (mkEnv "small" 0.2). split; [cbn; auto |]. reflexivity.
  - exists (mkEnv "large" 0.1). split; [cbn; auto |]. reflexivity.
  - exists (mkEnv "mixed" 0.6). split; [cbn; auto 6 |]. reflexivity.
  - exists (mkEnv "mixed" 0.15). split; [cbn; auto 6 |]. reflexivity.
Qed.

Lemma knownEnvs_bounds (e : Env) :
  In e knownEnvs ->
  0 <= predatorStrength e <= 1 /\
  exists sz, seed e = Policy.seedName sz.
Proof.
  cbn. intros [<- | [<- | [<- | [<- | [<- | []]]]]]; cbn [seed predatorStrength];
    (split; [split; vm_compute; discriminate |]).
  - exists Policy.mixed. reflexivity.
  - exists Policy.small. reflexivity.
  - exists Policy.large. reflexivity.
  - exists Policy.mixed. reflexivity.
  - exists Policy.mixed. reflexivity.
Qed.

(** X5: each of the four preset buttons completes normally, sets the
    environment to "small"/0.2, "large"/0.1, "mixed"/0.6 and "mixed"/0.15
    respectively (so a seed size of the table and a predator strength in
    [0,1]), and changes no other cell but the message. *)
Theorem quickScenario_presets (s : State) :
  quickScenario "Drought (small seeds)" s
  = Normal (setMessage "Scenario set: Drought (small seeds)"
              (setEnv (mkEnv "small" 0.2) s)) /\
  quickScenario "Abundant large seeds" s
  = Normal (setMessage "Scenario set: Abundant large seeds"
              (setEnv (mkEnv "large" 0.1) s)) /\
  quickScenario "High predators" s
  = Normal (setMessage "Scenario set: High predators"
              (setEnv (mkEnv "mixed" 0.6) s)) /\
  quickScenario "Mixed stable" s
  = Normal (setMessage "Scenario set: Mixed stable"
              (setEnv (mkEnv "mixed" 0.15) s)) /\
  (forall name, In name scenarioNames ->
     exists s', quickScenario name s = Normal s' /\
                0 <= predatorStrength (env s') <= 1 /\
                (exists sz, seed (env s') = Policy.seedName sz) /\
                generation s' = generation s /\
                populationSize s' = populationSize s /\
                population s' = population s /\
                foodPerGen s' = foodPerGen s /\
                history s' = history s /\
                running s' = running s).
Proof.
  split; [reflexivity |]. split; [reflexivity |]. split; [reflexivity |].
  split; [reflexivity |].
  intros name H. destruct (quickScenario_preset name s H) as [e [K E]].
  eexists. split; [apply E |].
  destruct (knownEnvs_bounds e K) as [B1 B2].
  cbn. repeat split; try apply B1. exact B2.
Qed.

Lemma quickScenario_presets_witness :
  In "Mixed stable"%string scenarioNames /\
  exists s', quickScenario "Mixed stable" sampleState = Normal s' /\
             population s' = samplePopulation.
Proof.
  assert (H : In "Mixed stable"%string scenarioNames) by (cbn; auto 6).
  split; [exact H |].
  destruct (proj2 (proj2 (proj2 (proj2 (quickScenario_presets sampleState))))
              "Mixed stable"%string H)
    as [s' [E [_ [_ [_ [_ [P _]]]]]]].
  exists s'. split; [exact E | exact P].
Defined.

(** X6: a preset overwrites whatever scenario was applied before it: after
    any call of [quickScenario] that completed, a preset gives the state it
    gives when applied alone; in particular a preset applied twice is the
    preset applied once. *)
Theorem quickScenario_last_wins (a b : string) (s s' : State) :
  In b scenarioNames ->
  quickScenario a s = Normal s' ->
  quickScenario b s' = quickScenario b s.
Proof.
  intros Hb Ha. destruct (quickScenario_preset b s Hb) as [e [_ E]].
  rewrite !E. f_equal.
  unfold quickScenario in Ha. injection Ha as <-.
  repeat match goal with
         | |- context [if ?c then _ else _] => destruct c
         end; reflexivity.
Qed.

Lemma quickScenario_last_wins_witness :
  In "Mixed stable"%string scenarioNames /\
  quickScenario "High predators" sampleState = Normal huntedState' /\
  quickScenario "Mixed stable" huntedState'
  = quickScenario "Mixed stable" sampleState.
Proof.
  assert (H : In "Mixed stable"%string scenarioNames) by (cbn; auto 6).
  assert (E : quickScenario "High predators" sampleState = Normal huntedState')
    by reflexivity.
  split; [exact H |]. split; [exact E |].
  exact (quickScenario_last_wins "High predators" "Mixed stable"
           sampleState huntedState' H E).
Defined.

(** ** Rendered lists *)

(** X7: the history panel lists the last 8 entries of the history (all of
    them when there are fewer), newest first: entry [k] of the panel is
    entry [length - 1 - k] of the history. *)
Theorem recentHistory_spec (h : list GenerationRecord) :
  recentHistory h = firstn 8 (rev h) /\
  List.length (recentHistory h) = Nat.min 8 (List.length h) /\
  (forall k, (k < 8)%nat -> (k < List.length h)%nat ->
             nth_error (recentHistory h) k = nth_error h (List.length h - S k)) /\
  ((List.length h <= 8)%nat -> recentHistory h = rev h) /\
  (forall r, In r (recentHistory h) -> In r h).
Proof.
  assert (E : recentHistory h = firstn 8 (rev h)).
  { unfold recentHistory. symmetry. apply firstn_rev. }
  split; [exact E |]. split; [| split; [| split]].
  - rewrite E, length_firstn, length_rev. reflexivity.
  - intros k K8 Kh. unfold recentHistory.
    rewrite nth_error_rev, length_skipn.
    destruct (Nat.ltb_spec k (List.length h - (List.length h - 8))) as [L | G];
      [| lia].
    rewrite nth_error_skipn. f_equal. lia.
  - intros L. rewrite E. apply firstn_all2. rewrite length_rev. exact L.
  - intros r I. rewrite E in I. apply In_firstn in I.
    apply in_rev, I.
Qed.

Lemma recentHistory_spec_witness :
  (0 < 8)%nat /\ (0 < List.length (history secondState))%nat /\
  nth_error (recentHistory (history secondState)) 0
  = nth_error (history secondState) 0.
Proof.
  assert (A : (0 < 8)%nat) by lia.
  assert (B : (0 < List.length (history secondState))%nat)
    by (apply Nat.ltb_lt; reflexivity).
  split; [exact A |]. split; [exact B |].
  exact (proj1 (proj2 (proj2 (recentHistory_spec (history secondState))))
           0%nat A B).
Defined.

(** X8: the bird panel draws the first 80 organisms and the note counts
    the rest: the drawn ones and the noted ones are the whole population,
    and up to 80 organisms all are drawn and there is no note. *)
Theorem shownBirds_spec (p : list Organism) :
  (List.length (shownBirds p)
   + match moreNote p with Some n => n | None => 0 end)%nat = List.length p /\
  (forall n, moreNote p = Some n -> (0 < n)%nat /\ (80 < List.length p)%nat) /\
  ((List.length p <= 80)%nat -> shownBirds p = p /\ moreNote p = None).
Proof.
  unfold shownBirds, moreNote. rewrite length_firstn.
  destruct (Nat.ltb_spec 80 (List.length p)) as [L | G].
  - split; [lia |]. split; [| lia].
    intros n E. injection E as <-. lia.
  - split; [lia |]. split; [discriminate |].
    intros _. split; [apply firstn_all2, G | reflexivity].
Qed.

Lemma shownBirds_spec_witness :
  (List.length samplePopulation <= 80)%nat /\
  shownBirds samplePopulation = samplePopulation.
Proof.
  assert (H : (List.length samplePopulation <= 80)%nat) by (cbn; lia).
  split; [exact H |].
  exact (proj1 (proj2 (proj2 (shownBirds_spec samplePopulation)) H)).
Defined.

(** ** Reach of the roulette wheel *)

Lemma sumFrom_prefix_le (l : list Scored) :
  Forall (fun p => 0 < score p) l ->
  forall acc k, sumFrom acc (firstn k l) <= sumFrom acc l.
Proof.
  induction 1 as [| p l Hp Hl IH]; intros acc k.
  - rewrite firstn_nil. apply Qle_refl.
  - destruct k as [| k]; cbn [firstn].
    + pose proof (sumFrom_ge (p :: l) (Forall_cons p Hp Hl) acc) as G.
      exact G.
    + cbn. apply IH.
Qed.

(** A pick above the cumulative score of the first [k] members and at
    most that of the first [k + 1] selects member [k]. *)
Lemma roulette_hits (l : list Scored) :
  Forall (fun p => 0 < score p) l ->
  forall (k : nat) (pick acc : Q) (parent p : Scored),
    nth_error l k = Some p ->
    (k = O \/ sumFrom acc (firstn k l) < pick) ->
    pick <= sumFrom acc (firstn (S k) l) ->
    roulette pick acc parent l = p.
Proof.
  induction 1 as [| q l Hq Hl IH]; intros k pick acc parent p N Lo Hi.
  - destruct k; discriminate.
  - destruct k as [| k]; cbn [roulette].
    + injection N as <-. cbn in Hi.
      apply Qle_bool_iff in Hi. rewrite Hi. reflexivity.
    + destruct Lo as [Lo | Lo]; [discriminate |].
      cbn [firstn] in Lo, Hi. cbn [nth_error] in N.
      assert (S1 : acc + score q < pick).
      { pose proof (sumFrom_ge (firstn k l)) as G.
        assert (Forall (fun p => 0 < score p) (firstn k l)) as F.
        { apply Forall_forall. intros x Hx. apply In_firstn in Hx.
          rewrite Forall_forall in Hl. apply Hl, Hx. }
        specialize (G F (acc + score q)). cbn in Lo. unfold sumFrom in *. lra. }
      destruct (Qle_bool pick (acc + score q)) eqn:E.
      * apply Qle_bool_iff in E. lra.
      * apply (IH k pick (acc + score q) parent p N).
        -- destruct k as [| k']; [left; reflexivity | right; exact Lo].
        -- exact Hi.
Qed.

(** A pick above the total leaves the walk without a [break]. *)
Lemma roulette_miss (l : list Scored) :
  Forall (fun p => 0 < score p) l ->
  forall (pick acc : Q) (parent : Scored),
    sumFrom acc l < pick -> roulette pick acc parent l = parent.
Proof.
  induction 1 as [| q l Hq Hl IH]; intros pick acc parent H; [reflexivity |].
  cbn [roulette]. cbn in H.
  pose proof (sumFrom_ge l Hl (acc + score q)) as G. unfold sumFrom in G.
  destruct (Qle_bool pick (acc + score q)) eqn:E.
  - apply Qle_bool_iff in E. lra.
  - apply IH. exact H.
Qed.

Lemma cumulative_step (l : list Scored) :
  forall (k : nat) (p : Scored),
    nth_error l k = Some p ->
    cumulative l (S k) = cumulative l k + score p.
Proof.
  intros k p N. unfold cumulative, totalScore.
  replace (firstn (S k) l) with (firstn k l ++ [p])%list.
  - rewrite fold_left_app. reflexivity.
  - revert k N. induction l as [| y l IH]; intros [| k] N; try discriminate.
    + injection N as <-. reflexivity.
    + cbn [firstn app]. f_equal. apply IH, N.
Qed.

Lemma cumulative_mono (l : list Scored) (a b : nat) :
  Forall (fun p => 0 < score p) l ->
  (a <= b)%nat -> cumulative l a <= cumulative l b.
Proof.
  intros Pos L. unfold cumulative, totalScore.
  replace (firstn a l) with (firstn a (firstn b l))
    by (rewrite firstn_firstn; f_equal; lia).
  apply (sumFrom_prefix_le (firstn b l)).
  apply Forall_forall. intros x Hx. apply In_firstn in Hx.
  rewrite Forall_forall in Pos. apply Pos, Hx.
Qed.

(** X9: the roulette walk on a pool of positive scores.  The cumulative
    score after a member is the one before it plus its score, as the walk
    adds them.  A pick selects member 0 when it is at most the first
    score, and member [k > 0] when it is above the cumulative score before
    [k] and at most the one after it; every pick up to the total selects
    the member of exactly one such index; a pick above the total selects
    the first member, the initial value of [parent]; and the draw 0 selects
    the first member. *)
Theorem roulette_selection_rule (first : Scored) (rest : list Scored) :
  let pool := first :: rest in
  Forall (fun x => 0 < score x) pool ->
  (forall k p, nth_error pool k = Some p ->
               cumulative pool (S k) = cumulative pool k + score p) /\
  (forall pick k p,
      nth_error pool k = Some p ->
      k = O \/ cumulative pool k < pick ->
      pick <= cumulative pool (S k) ->
      roulette pick 0 first pool = p) /\
  (forall pick,
      pick <= totalScore pool ->
      exists k p, nth_error pool k = Some p /\
                  (k = O \/ cumulative pool k < pick) /\
                  pick <= cumulative pool (S k) /\
                  roulette pick 0 first pool = p) /\
  (forall pick k1 k2,
      k1 = O \/ cumulative pool k1 < pick -> pick <= cumulative pool (S k1) ->
      k2 = O \/ cumulative pool k2 < pick -> pick <= cumulative pool (S k2) ->
      k1 = k2) /\
  (forall pick, totalScore pool < pick -> roulette pick 0 first pool = first) /\
  roulette (0 * totalScore pool) 0 first pool = first.
Proof.
  intros pool Pos.
  split; [intros k p N; apply cumulative_step, N |].
  split; [| split; [| split; [| split]]].
  - intros pick k p N Lo Hi.
    apply (roulette_hits pool Pos k pick 0 first p N Lo Hi).
  - intros pick Hi.
    destruct (roulette_first pool pick 0 first) as [k [N [Le First]]].
    { exists (List.length rest). split; [cbn; lia |].
      replace (firstn (S (List.length rest)) pool) with pool; [exact Hi |].
      symmetry. apply firstn_all2. cbn. lia. }
    exists k, (roulette pick 0 first pool).
    split; [exact N |]. split; [| split; [exact Le | reflexivity]].
    destruct k as [| k]; [left; reflexivity | right].
    apply (First k). lia.
  - assert (Lt : forall pick a b,
               (a < b)%nat -> pick <= cumulative pool (S a) ->
               b = O \/ cumulative pool b < pick -> False).
    { intros pick a b L Ha [Hb | Hb]; [lia |].
      pose proof (cumulative_mono pool (S a) b Pos L). lra. }
    intros pick k1 k2 Lo1 Hi1 Lo2 Hi2.
    destruct (Nat.lt_trichotomy k1 k2) as [L | [E | L]]; [| exact E |].
    + exfalso. apply (Lt pick k1 k2 L Hi1 Lo2).
    + exfalso. apply (Lt pick k2 k1 L Hi2 Lo1).
  - intros pick H. apply (roulette_miss pool Pos). exact H.
  - unfold pool. cbn [roulette].
    assert (Qle_bool (0 * totalScore (first :: rest)) (0 + score first) = true)
      as ->; [| reflexivity].
    apply Qle_bool_iff. inversion Pos; subst. lra.
Qed.

Lemma roulette_selection_rule_witness :
  let pool := fst (afterPredationOf sampleRnd sampleState 0%nat) in
  let first := hd (mkScored (mkOrganism 0 None 0) 0) pool in
  Forall (fun x => 0 < score x) (first :: tl pool) /\
  (exists p, nth_error (first :: tl pool) 1 = Some p /\
             cumulative (first :: tl pool) 1 < cumulative (first :: tl pool) 2 /\
             roulette (cumulative (first :: tl pool) 2) 0 first
               (first :: tl pool) = p).
Proof.
  intros pool first.
  assert (P : Forall (fun x => 0 < score x) (first :: tl pool)).
  { change (first :: tl pool) with pool.
    apply (afterPredationOf_positive sampleRnd sampleRnd_unit). }
  split; [exact P |].
  assert (N : nth_error (first :: tl pool) 1 = nth_error pool 1) by reflexivity.
  destruct (nth_error pool 1) as [p |] eqn:E; [| discriminate E].
  assert (L : cumulative (first :: tl pool) 1 < cumulative (first :: tl pool) 2)
    by reflexivity.
  exists p. split; [exact N |]. split; [exact L |].
  exact (proj1 (proj2 (roulette_selection_rule first (tl pool) P))
           (cumulative (first :: tl pool) 2) 1%nat p N (or_intror L)
           (Qle_refl _)).
Defined.

(** ** Factory, resize and reset *)

Section ComponentProperties.

Variable rnd : nat -> Q.

Hypothesis rnd_unit : forall n, 0 <= rnd n < 1.

Lemma randomPopulation_draws (size : nat) :
  forall i,
    snd (randomPopulation rnd size i) = (i + 2 * size)%nat /\
    Forall (fun o => energy o = 0%Z) (fst (randomPopulation rnd size i)).
Proof.
  induction size as [| n IH]; intros i; cbn [randomPopulation].
  - cbn. split; [lia | constructor].
  - rewrite !bind_run. unfold ret. cbn [fst snd].
    rewrite newOrganism_unfold. cbn [fst snd].
    destruct (IH (S (S i))) as [D E]. split.
    + rewrite D. lia.
    + constructor; [reflexivity | exact E].
Qed.

(** X10: [randomPopulation(size)] returns exactly [size] organisms, each
    with one of the three traits and energy 0, and calls [Math.random()]
    twice per organism; for size 0 it returns the empty array without
    drawing. *)
Theorem randomPopulation_factory (size i : nat) :
  List.length (fst (randomPopulation rnd size i)) = size /\
  Forall validOrganism (fst (randomPopulation rnd size i)) /\
  Forall (fun o => energy o = 0%Z) (fst (randomPopulation rnd size i)) /\
  snd (randomPopulation rnd size i) = (i + 2 * size)%nat /\
  randomPopulation rnd 0 i = ([], i).
Proof.
  destruct (randomPopulation_spec rnd rnd_unit size i) as [L V].
  destruct (randomPopulation_draws size i) as [D E].
  repeat split; assumption.
Qed.

Lemma syncPopulation_cases (s : State) (i : nat) :
  (List.length (population s) = populationSize s /\
   syncPopulation rnd s i = (s, i)) \/
  (List.length (population s) <> populationSize s /\
   syncPopulation rnd s i
   = (setPopulation (fst (randomPopulation rnd (populationSize s) i)) s,
      (i + 2 * populationSize s)%nat)).
Proof.
  unfold syncPopulation.
  destruct (Nat.eqb_spec (List.length (population s)) (populationSize s))
    as [E | N].
  - left. split; [exact E | reflexivity].
  - right. split; [exact N |].
    rewrite bind_run. unfold ret.
    rewrite (proj1 (randomPopulation_draws (populationSize s) i)).
    reflexivity.
Qed.

(** X11: moving the size slider to [n] leaves a population of exactly [n]
    organisms with traits among the three names.  When [n] is the size the
    population already has, the state is unchanged and nothing is drawn;
    otherwise the whole population is replaced by [randomPopulation(n)].
    Generation number, history, environment and food budget are kept in
    both cases. *)
Theorem changePopulationSize_spec (n : nat) (s : State) (i : nat) :
  Forall validOrganism (population s) ->
  let s' := fst (changePopulationSize rnd n s i) in
  populationSize s' = n /\
  List.length (population s') = n /\
  Forall validOrganism (population s') /\
  (List.length (population s) = n ->
   population s' = population s /\
   snd (changePopulationSize rnd n s i) = i) /\
  (List.length (population s) <> n ->
   population s' = fst (randomPopulation rnd n i)) /\
  generation s' = generation s /\
  history s' = history s /\
  env s' = env s /\
  foodPerGen s' = foodPerGen s.
Proof.
  intros V s'. unfold s', changePopulationSize.
  destruct (syncPopulation_cases (setPopulationSize n s) i) as [[E ->] | [N ->]];
    cbn [fst snd] in *; cbn [setPopulationSize setPopulation populationSize
      population generation history env foodPerGen] in *.
  - split; [reflexivity |]. split; [exact E |]. split; [exact V |].
    split; [intros _; split; reflexivity |].
    split; [intros N; exfalso; apply N, E |].
    repeat split.
  - destruct (randomPopulation_spec rnd rnd_unit n i) as [L V'].
    split; [reflexivity |]. split; [exact L |]. split; [exact V' |].
    split; [intros E; exfalso; apply N, E |].
    split; [intros _; reflexivity |].
    repeat split.
Qed.

(** X12: the effect that follows a resize settles: run again on its own
    result it changes nothing and draws nothing. *)
Theorem syncPopulation_idempotent (s : State) (i j : nat) :
  let s' := fst (syncPopulation rnd s i) in
  List.length (population s') = populationSize s' /\
  syncPopulation rnd s' j = (s', j).
Proof.
  intros s'.
  assert (L : List.length (population s') = populationSize s').
  { unfold s'. destruct (syncPopulation_cases s i) as [[E ->] | [N ->]];
      cbn [fst]; [exact E |].
    cbn [setPopulation population populationSize].
    apply (randomPopulation_spec rnd rnd_unit). }
  split; [exact L |].
  destruct (syncPopulation_cases s' j) as [[_ E] | [N _]]; [exact E |].
  exfalso. apply N, L.
Qed.

(** X13: "Reset" starts over with generation 1, an empty history, an empty
    message and a fresh population of [populationSize] organisms with
    traits among the three names; it keeps the population size, the
    environment, the food budget and the [running] flag. *)
Theorem resetSimulation_spec (s : State) (i : nat) :
  let s' := fst (resetSimulation rnd s i) in
  generation s' = 1%Z /\
  history s' = [] /\
  message s' = ""%string /\
  population s' = fst (randomPopulation rnd (populationSize s) i) /\
  wellFormed s' /\
  populationSize s' = populationSize s /\
  env s' = env s /\
  foodPerGen s' = foodPerGen s /\
  running s' = running s.
Proof.
  intros s'. unfold s', resetSimulation. rewrite bind_run. unfold ret.
  cbn [fst]. unfold wellFormed.
  cbn [setMessage setHistory setPopulation setGeneration generation history
       message population populationSize env foodPerGen running].
  destruct (randomPopulation_spec rnd rnd_unit (populationSize s) i) as [L V].
  repeat split; assumption.
Qed.

(** ** Descent of the offspring *)

Lemma mutateTrait_drift (t : Trait) (i : nat) :
  drift t (fst (mutateTrait rnd t i)).
Proof.
  unfold drift. rewrite mutateTrait_child.
  destruct (Qltb (rnd i) 0.06); [right | left; reflexivity].
  destruct (t === "Small").
  - destruct (Qltb (rnd (S i)) 0.5); auto.
  - destruct (t === "Medium").
    + apply index_TRAITS_valid, rnd_unit.
    + destruct (Qltb (rnd (S i)) 0.5); auto.
Qed.

Lemma breed_drift (first : Scored) (rest : list Scored) (i : nat) :
  exists p, In p (first :: rest) /\
            drift (trait (org p)) (trait (fst (breed rnd first (first :: rest) i))).
Proof.
  rewrite breed_trait.
  exists (roulette (rnd i * totalScore (first :: rest)) 0 first (first :: rest)).
  split; [| apply mutateTrait_drift].
  destruct (roulette_In (first :: rest) (rnd i * totalScore (first :: rest))
              0 first) as [-> | I]; [left; reflexivity | exact I].
Qed.

Lemma reproduce_drift (missing : nat) (pool : list Scored) :
  forall (offspring : list Organism) (i : nat),
    Forall (fun o => exists p, In p pool /\ drift (trait (org p)) (trait o))
           offspring ->
    Forall (fun o => exists p, In p pool /\ drift (trait (org p)) (trait o))
           (fst (reproduce rnd missing pool offspring i)).
Proof.
  induction missing as [| n IH]; intros offspring i F; [exact F |].
  cbn [reproduce]. destruct pool as [| first rest]; [exact F |].
  rewrite bind_run. apply IH. apply Forall_app. split; [exact F |].
  constructor; [apply breed_drift | constructor].
Qed.

Lemma offspringOf_pool_drift (s : State) (i : nat) :
  Forall (fun o => exists p, In p (fst (afterPredationOf rnd s i)) /\
                             drift (trait (org p)) (trait o))
         (fst (offspringOf rnd s i)).
Proof.
  unfold offspringOf. rewrite bind_run. apply reproduce_drift. constructor.
Qed.

(** X14: every offspring descends from an organism of the current
    population by at most one step of the mutation walk.  So a population
    that is all Small breeds only Small and Medium, and one that is all
    Large only Medium and Large; and when somebody survives predation the
    offspring are the whole next population. *)
Theorem offspring_descent (s : State) (i : nat) :
  let offspring := fst (offspringOf rnd s i) in
  Forall (fun o => exists parent, In parent (population s) /\
                                  drift (trait parent) (trait o)) offspring /\
  (Forall (fun o => trait o = Some "Small"%string) (population s) ->
   Forall (fun o => trait o = Some "Small"%string \/
                    trait o = Some "Medium"%string) offspring) /\
  (Forall (fun o => trait o = Some "Large"%string) (population s) ->
   Forall (fun o => trait o = Some "Medium"%string \/
                    trait o = Some "Large"%string) offspring) /\
  (fst (afterPredationOf rnd s i) <> [] ->
   exists s', fst (simulateGeneration rnd s i) = Normal s' /\
              population s' = offspring).
Proof.
  intros offspring.
  assert (D : Forall (fun o => exists parent, In parent (population s) /\
                                  drift (trait parent) (trait o)) offspring).
  { eapply Forall_impl; [| apply offspringOf_pool_drift].
    intros o [p [I Dr]]. exists (org p). split; [| exact Dr].
    apply (afterPredationOf_In rnd) in I.
    rewrite <- (scoreOrganism_orgs rnd (env s) (population s) i).
    apply in_map, I. }
  split; [exact D |]. split; [| split].
  - intros A. eapply Forall_impl; [| exact D].
    intros o [parent [I Dr]]. rewrite Forall_forall in A.
    rewrite (A parent I) in Dr. destruct Dr as [-> | Dr]; [left; reflexivity |].
    exact Dr.
  - intros A. eapply Forall_impl; [| exact D].
    intros o [parent [I Dr]]. rewrite Forall_forall in A.
    rewrite (A parent I) in Dr. destruct Dr as [-> | Dr]; [right; reflexivity |].
    exact Dr.
  - intros N. destruct (no_replenishment rnd s i) as [s' [E [P _]]].
    + rewrite offspringOf_length.
      destruct (fst (afterPredationOf rnd s i)); [contradiction | lia].
    + exists s'. split; [exact E | exact P].
Qed.

(** ** A food budget of one *)

Lemma filterM_singleton {A : Type} (f : A -> M bool) (x : A) (i : nat) :
  fst (filterM f [x] i) = [x] \/ fst (filterM f [x] i) = [].
Proof.
  cbn [filterM]. rewrite !bind_run. unfold ret. cbn [fst].
  destruct (fst (f x i)); auto.
Qed.

Lemma reproduce_single (missing : nat) (top : Scored) :
  forall (offspring : list Organism) (i : nat),
    Forall (fun o => drift (trait (org top)) (trait o)) offspring ->
    Forall (fun o => drift (trait (org top)) (trait o))
           (fst (reproduce rnd missing [top] offspring i)).
Proof.
  intros offspring i F.
  assert (F' : Forall (fun o => exists p, In p [top] /\
                                          drift (trait (org p)) (trait o))
                      offspring).
  { eapply Forall_impl; [| exact F].
    intros o Dr. exists top. split; [left; reflexivity | exact Dr]. }
  eapply Forall_impl; [| apply (reproduce_drift missing [top] offspring i F')].
  intros o [p [[<- | []] Dr]]. exact Dr.
Qed.

(** X15: with a food budget of 1 and a non-empty population only the top
    scorer is fed.  If predation takes it the pool is empty; otherwise it
    is the parent of every reproduction, the loop makes [populationSize]
    offspring and each one's trait is the top scorer's or one step of the
    mutation walk from it. *)
Theorem single_survivor (s : State) (i : nat) (top : Scored) (others : list Scored) :
  foodPerGen s = 1%Z ->
  sort (fst (scoredOf rnd s i)) = top :: others ->
  fst (survivorsOf rnd s i) = [top] /\
  (fst (afterPredationOf rnd s i) = [] \/
   fst (afterPredationOf rnd s i) = [top] /\
   List.length (fst (offspringOf rnd s i)) = populationSize s /\
   Forall (fun o => drift (trait (org top)) (trait o))
          (fst (offspringOf rnd s i))).
Proof.
  intros F E.
  assert (Sv : fst (survivorsOf rnd s i) = [top]).
  { rewrite survivorsOf_eq, F, E. reflexivity. }
  split; [exact Sv |].
  assert (P : fst (afterPredationOf rnd s i)
              = fst (filterM (survivesPredation rnd (env s)) [top]
                       (snd (survivorsOf rnd s i)))).
  { unfold afterPredationOf. rewrite bind_run, Sv. reflexivity. }
  destruct (filterM_singleton (survivesPredation rnd (env s)) top
              (snd (survivorsOf rnd s i))) as [K | K]; rewrite K in P.
  - right. split; [exact P |]. split.
    + rewrite offspringOf_length, P. reflexivity.
    + unfold offspringOf. rewrite bind_run, P.
      apply reproduce_single. constructor.
  - left. exact P.
Qed.

(** ** Successive generations *)

Lemma numbered_step (s s' : State) (i : nat) :
  numbered s ->
  fst (simulateGeneration rnd s i) = Normal s' ->
  numbered s'.
Proof.
  intros [B N] E. destruct (simulateGeneration_normal rnd s i) as [s'' [E' H]].
  rewrite E in E'. injection E' as <-.
  destruct H as [_ [_ [_ [G [_ [_ [Hh _]]]]]]].
  unfold numbered. rewrite G, Hh, length_app. cbn [List.length].
  split; [lia |].
  intros k r Hk.
  destruct (Nat.lt_ge_cases k (List.length (history s))) as [L | Ge].
  - rewrite nth_error_app1 in Hk by exact L. rewrite (N k r Hk). lia.
  - rewrite nth_error_app2 in Hk by exact Ge.
    destruct (k - List.length (history s))%nat as [| d] eqn:D.
    + cbn in Hk. injection Hk as <-. cbn [h_generation]. lia.
    + destruct d; discriminate.
Qed.

Lemma generations_unfold (n : nat) (s : State) (i : nat) :
  generations rnd (S n) s i
  = match fst (simulateGeneration rnd s i) with
    | Normal s' =>
        generations rnd n (generationComplete s')
          (snd (simulateGeneration rnd s i))
    | Throw e => (Throw e, snd (simulateGeneration rnd s i))
    end.
Proof.
  cbn [generations]. rewrite bind_run.
  destruct (fst (simulateGeneration rnd s i)); reflexivity.
Qed.

Lemma generations_normal (n : nat) :
  forall (s : State) (i : nat),
    exists s', fst (generations rnd n s i) = Normal s' /\
      generation s' = (generation s + Z.of_nat n)%Z /\
      List.length (history s') = (List.length (history s) + n)%nat /\
      firstn (List.length (history s)) (history s') = history s /\
      populationSize s' = populationSize s /\
      env s' = env s /\
      foodPerGen s' = foodPerGen s /\
      (numbered s -> numbered s').
Proof.
  induction n as [| n IH]; intros s i.
  - exists s. cbn [generations ret fst]. split; [reflexivity |].
    split; [lia |]. split; [lia |]. split; [apply firstn_all |].
    split; [reflexivity |]. split; [reflexivity |]. split; [reflexivity |].
    intros Nb. exact Nb.
  - rewrite generations_unfold.
    destruct (simulateGeneration_normal rnd s i) as [s1 [E H]]. rewrite E.
    destruct H as [P [_ [_ [G [En [F [Hh _]]]]]]].
    destruct (IH (generationComplete s1) (snd (simulateGeneration rnd s i)))
      as [s' [E' [G' [L' [Pre' [P' [En' [F' N']]]]]]]].
    cbn [generationComplete generation history populationSize env foodPerGen]
      in G', L', Pre', P', En', F'.
    exists s'. split; [exact E' |].
    split; [rewrite G', G; lia |].
    split; [rewrite L', Hh, length_app; cbn; lia |].
    split.
    { rewrite Hh in Pre'. rewrite length_app in Pre'. cbn [List.length] in Pre'.
      replace (firstn (List.length (history s)) (history s'))
        with (firstn (List.length (history s))
                (firstn (List.length (history s) + 1) (history s')))
        by (rewrite firstn_firstn; f_equal; lia).
      rewrite Pre'. rewrite firstn_app, Nat.sub_diag, firstn_all. cbn.
      apply app_nil_r. }
    split; [congruence |]. split; [congruence |]. split; [congruence |].
    intros Nb. apply N'.
    pose proof (numbered_step s s1 i Nb E) as [B1 N1].
    split; [exact B1 | exact N1].
Qed.

(** X16: [n] successive generations always complete; they raise the
    generation number by [n], append [n] entries to the history without
    touching the entries that were there, keep the entries numbered
    consecutively if they were, and leave population size, environment and
    food budget alone.  Running [n + m] generations is running [n] and then
    [m] from the state and the draw reached. *)
Theorem generations_compose (n m : nat) (s : State) (i : nat) :
  (exists s', fst (generations rnd n s i) = Normal s' /\
      generation s' = (generation s + Z.of_nat n)%Z /\
      List.length (history s') = (List.length (history s) + n)%nat /\
      firstn (List.length (history s)) (history s') = history s /\
      populationSize s' = populationSize s /\
      env s' = env s /\
      foodPerGen s' = foodPerGen s /\
      (numbered s -> numbered s')) /\
  generations rnd (n + m) s i
  = match fst (generations rnd n s i) with
    | Normal s' => generations rnd m s' (snd (generations rnd n s i))
    | Throw e => (Throw e, snd (generations rnd n s i))
    end.
Proof.
  split; [apply generations_normal |].
  revert s i. induction n as [| n IH]; intros s i.
  - reflexivity.
  - cbn [Nat.add]. rewrite !generations_unfold.
    destruct (fst (simulateGeneration rnd s i)) as [s1 | e].
    + apply IH.
    + reflexivity.
Qed.

(** ** Sessions *)

Lemma breed_energy (first : Scored) (pool : list Scored) (i : nat) :
  energy (fst (breed rnd first pool i)) = 0%Z.
Proof. unfold breed. rewrite !bind_run. reflexivity. Qed.

Lemma reproduce_energy (missing : nat) (pool : list Scored) :
  forall (offspring : list Organism) (i : nat),
    Forall (fun o => energy o = 0%Z) offspring ->
    Forall (fun o => energy o = 0%Z) (fst (reproduce rnd missing pool offspring i)).
Proof.
  induction missing as [| n IH]; intros offspring i F; [exact F |].
  cbn [reproduce]. destruct pool as [| first rest]; [exact F |].
  rewrite bind_run. apply IH. apply Forall_app. split; [exact F |].
  constructor; [apply breed_energy | constructor].
Qed.

Lemma simulateGeneration_energy (s s' : State) (i : nat) :
  fst (simulateGeneration rnd s i) = Normal s' ->
  Forall (fun o => energy o = 0%Z) (population s').
Proof.
  intros E. destruct (simulateGeneration_normal rnd s i) as [s'' [E' H]].
  rewrite E in E'. injection E' as <-.
  destruct H as [_ [P _]]. rewrite P.
  assert (O : Forall (fun o => energy o = 0%Z) (fst (offspringOf rnd s i))).
  { unfold offspringOf. rewrite bind_run. apply reproduce_energy. constructor. }
  destruct (List.length (fst (offspringOf rnd s i)) <? populationSize s)%nat;
    [| exact O].
  apply Forall_app. split; [exact O | apply randomPopulation_draws].
Qed.

Lemma healthy_mount (i : nat) : healthy (fst (mount rnd i)).
Proof.
  unfold mount. rewrite bind_run. unfold ret. cbn [fst].
  destruct (randomPopulation_spec rnd rnd_unit 20 i) as [L V].
  constructor; cbn [cells timers population populationSize foodPerGen env
                    history running generation].
  - split; assumption.
  - lia.
  - apply randomPopulation_draws.
  - lia.
  - left. reflexivity.
  - split; [cbn; lia |]. intros [| k] r H; discriminate.
  - constructor.
  - split; [lia |]. split; intros H; discriminate.
Qed.

Lemma healthy_step (a : action) (c : Component) (i : nat) :
  healthy c -> enabled a c = true -> healthy (fst (step rnd a c i)).
Proof.
  intros [[L V] Sz En Fd Ev Nb Rc [T1 T2]] A.
  destruct a; cbn [step enabled] in *.
  - (* Simulate Gen *)
    rewrite bind_run. unfold ret. cbn [fst].
    destruct (simulateGeneration_normal rnd (cells c) i) as [s' [E H]].
    rewrite E.
    pose proof (simulateGeneration_length rnd rnd_unit (cells c) s' i E) as L'.
    pose proof (simulateGeneration_valid rnd rnd_unit (cells c) s' i V E) as V'.
    pose proof (simulateGeneration_energy (cells c) s' i E) as En'.
    pose proof (numbered_step (cells c) s' i Nb E) as Nb'.
    destruct H as [P [_ [_ [_ [He [Hf [Hh Hr]]]]]]].
    assert (T0 : timers c = 0%nat).
    { destruct (running (cells c)) eqn:R; [discriminate |].
      destruct (timers c) as [| [| t]]; [reflexivity | | lia].
      destruct T2 as [_ T2]. specialize (T2 eq_refl). discriminate. }
    constructor; cbn [cells timers].
    + split; [rewrite P; exact L' | exact V'].
    + rewrite P. exact Sz.
    + exact En'.
    + rewrite Hf. exact Fd.
    + rewrite He. exact Ev.
    + exact Nb'.
    + rewrite Hh. apply Forall_app. split; [exact Rc |].
      constructor; [| constructor]. cbn [h_env h_counts].
      split; [exact Ev |].
      rewrite (traitCounts_total (population (cells c)) V), L. exact Sz.
    + rewrite T0, Hr. split; [lia |]. split; reflexivity.
  - (* the timer *)
    apply Nat.ltb_lt in A.
    assert (P : pred (timers c) = 0%nat) by lia.
    constructor; cbn [cells timers generationComplete population populationSize
                      foodPerGen env history running generation fst ret];
      try assumption.
    + split; assumption.
    + rewrite P. split; [lia |]. split; discriminate.
  - (* a preset *)
    assert (I : In name scenarioNames).
    { apply existsb_exists in A. destruct A as [x [Hx Ex]].
      apply String.eqb_eq in Ex. subst. exact Hx. }
    destruct (quickScenario_preset name (cells c) I) as [e [K Q]].
    rewrite Q.
    constructor; cbn [cells timers withCells setMessage setEnv population
                      populationSize foodPerGen env history running generation
                      fst ret]; try assumption.
    + split; assumption.
    + split; assumption.
  - (* - Food *)
    constructor; cbn [cells timers withCells lessFood setFoodPerGen population
                      populationSize foodPerGen env history running generation
                      fst ret]; try assumption.
    + split; assumption.
    + lia.
    + split; assumption.
  - (* + Food *)
    constructor; cbn [cells timers withCells moreFood setFoodPerGen population
                      populationSize foodPerGen env history running generation
                      fst ret]; try assumption.
    + split; assumption.
    + lia.
    + split; assumption.
  - (* the slider *)
    apply andb_true_iff in A. destruct A as [A1 A2].
    apply Nat.leb_le in A1, A2.
    rewrite bind_run. unfold ret. cbn [fst]. unfold changePopulationSize.
    destruct (syncPopulation_cases (setPopulationSize n (cells c)) i)
      as [[E ->] | [N ->]];
      cbn [fst setPopulationSize setPopulation population populationSize] in *.
    + constructor; cbn [cells timers withCells setPopulationSize population
                        populationSize foodPerGen env history running
                        generation]; try assumption.
      * split; assumption.
      * lia.
      * split; assumption.
    + destruct (randomPopulation_spec rnd rnd_unit n i) as [L' V'].
      constructor; cbn [cells timers withCells setPopulationSize setPopulation
                        population populationSize foodPerGen env history
                        running generation]; try assumption.
      * split; assumption.
      * lia.
      * apply randomPopulation_draws.
      * split; assumption.
  - (* Reset *)
    rewrite bind_run. unfold ret, resetSimulation. rewrite bind_run.
    unfold ret. cbn [fst].
    destruct (randomPopulation_spec rnd rnd_unit (populationSize (cells c)) i)
      as [L' V'].
    constructor; cbn [cells timers withCells setMessage setHistory setPopulation
                      setGeneration population populationSize foodPerGen env
                      history running generation]; try assumption.
    + split; assumption.
    + apply randomPopulation_draws.
    + split; [cbn; lia |]. intros [| k] r H; discriminate.
    + constructor.
    + split; assumption.
  - (* Clear History *)
    constructor; cbn [cells timers withCells clearHistory setMessage setHistory
                      population populationSize foodPerGen env history running
                      generation fst ret]; try assumption.
    + split; assumption.
    + destruct Nb as [B _]. split; [cbn; lia |].
      intros [| k] r H; discriminate.
    + constructor.
    + split; assumption.
Qed.

Lemma reachable_healthy (c : Component) : reachable rnd c -> healthy c.
Proof.
  induction 1 as [i | c a i _ IH A].
  - apply healthy_mount.
  - apply healthy_step; assumption.
Qed.

Lemma validTrait_named (t : Trait) :
  validTrait t -> exists pt, t = Policy.traitName pt.
Proof.
  intros V. apply validTrait_cases in V. destruct V as [-> | [-> | ->]].
  - exists Policy.Small. reflexivity.
  - exists Policy.Medium. reflexivity.
  - exists Policy.Large. reflexivity.
Qed.

(** X17: in every state a session can reach, whatever the buttons pressed
    and the slider moves, the population has exactly [populationSize]
    organisms, a size between 6 and 60, traits among the three names and
    energy 0; the trait counts add up to the population size; and the bird
    panel draws the whole population without a "more" note. *)
Theorem session_population (c : Component) :
  reachable rnd c ->
  List.length (population (cells c)) = populationSize (cells c) /\
  (6 <= populationSize (cells c) <= 60)%nat /\
  Forall validOrganism (population (cells c)) /\
  Forall (fun o => energy o = 0%Z) (population (cells c)) /\
  total (traitCounts (population (cells c))) = populationSize (cells c) /\
  shownBirds (population (cells c)) = population (cells c) /\
  moreNote (population (cells c)) = None.
Proof.
  intros R. destruct (reachable_healthy c R) as [[L V] Sz En _ _ _ _ _].
  split; [exact L |]. split; [exact Sz |]. split; [exact V |].
  split; [exact En |]. split; [rewrite traitCounts_total by exact V; exact L |].
  unfold shownBirds, moreNote. split.
  - apply firstn_all2. lia.
  - destruct (Nat.ltb_spec 80 (List.length (population (cells c))));
      [lia | reflexivity].
Qed.

(** X18: in every reachable state the environment is the initial one or a
    preset and the food budget is at least 1; so the food stage feeds at
    least one bird, and every organism's fitness is its table value minus
    the predation penalty, between 0.5 and 1.25, never the floor 0.1. *)
Theorem session_environment (c : Component) :
  reachable rnd c ->
  In (env (cells c)) knownEnvs /\
  0 <= predatorStrength (env (cells c)) <= 1 /\
  (1 <= foodPerGen (cells c))%Z /\
  (forall i, (1 <= List.length (fst (survivorsOf rnd (cells c) i)))%nat) /\
  (forall o, In o (population (cells c)) ->
             0.1 < fitnessForTrait (trait o) (env (cells c)) /\
             0.5 <= fitnessForTrait (trait o) (env (cells c)) <= 1.25).
Proof.
  intros R. destruct (reachable_healthy c R) as [[L V] Sz _ Fd Ev _ _ _].
  destruct (knownEnvs_bounds _ Ev) as [B [sz Hs]].
  split; [exact Ev |]. split; [exact B |]. split; [exact Fd |]. split.
  - intros i. rewrite survivorsOf_eq, length_firstn.
    rewrite (Permutation_length (sort_perm _)).
    unfold scoredOf.
    rewrite <- (length_map org), (scoreOrganism_orgs rnd (env (cells c))).
    lia.
  - intros o Ho. rewrite Forall_forall in V.
    destruct (validTrait_named (trait o) (V o Ho)) as [pt ->].
    destruct (env (cells c)) as [sd ps]. cbn [seed predatorStrength] in *.
    subst sd.
    rewrite (fitnessForTrait_raw pt sz ps B).
    pose proof (raw_fitness_bounds pt sz ps B). lra.
Qed.

(** X19: in every reachable state the history entries carry consecutive
    generation numbers that end just below the current generation (which
    is at least 1), each entry records a known environment, and its trait
    counts add up to a population size between 6 and 60. *)
Theorem session_history (c : Component) :
  reachable rnd c ->
  (1 <= generation (cells c))%Z /\
  (Z.of_nat (List.length (history (cells c))) < generation (cells c))%Z /\
  (forall k r, nth_error (history (cells c)) k = Some r ->
               h_generation r
               = (generation (cells c)
                  - Z.of_nat (List.length (history (cells c))) + Z.of_nat k)%Z) /\
  Forall (fun r => In (h_env r) knownEnvs /\
                   (6 <= total (h_counts r) <= 60)%nat) (history (cells c)).
Proof.
  intros R. destruct (reachable_healthy c R) as [_ _ _ _ _ [B N] Rc _].
  split; [lia |]. split; [exact B |]. split; [exact N | exact Rc].
Qed.

(** X20: in every reachable state at most one completion timer is pending,
    and one is pending exactly when [running] is set: "Simulate Gen" can
    be clicked exactly when no timer is pending, and whenever it is
    disabled the timer that enables it again is still to fire. *)
Theorem session_timer (c : Component) :
  reachable rnd c ->
  (timers c <= 1)%nat /\
  (running (cells c) = true <-> timers c = 1%nat) /\
  (enabled ClickSimulate c = true <-> timers c = 0%nat) /\
  (enabled ClickSimulate c = false -> enabled TimerFires c = true) /\
  running (cells (fst (step rnd TimerFires c 0%nat))) = false.
Proof.
  intros R. destruct (reachable_healthy c R) as [_ _ _ _ _ _ _ [T1 T2]].
  split; [exact T1 |]. split; [exact T2 |].
  cbn [enabled step ret fst cells generationComplete running].
  destruct (running (cells c)); cbn [negb].
  - assert (timers c = 1%nat) as -> by (apply T2; reflexivity).
    split; [split; discriminate |]. split; reflexivity.
  - assert (timers c = 0%nat) as ->.
    { destruct (timers c) as [| [| t]]; [reflexivity | | lia].
      destruct T2 as [_ T2]. specialize (T2 eq_refl). discriminate. }
    split; [split; reflexivity |]. split; [discriminate | reflexivity].
Qed.

End ComponentProperties.

(** ** The further properties on sample runs *)

Lemma busyComponent_reachable : reachable sampleRnd busyComponent.
Proof.
  unfold busyComponent, startComponent.
  apply reach_step; [apply reach_mount | reflexivity].
Qed.

Lemma randomPopulation_factory_witness :
  (forall n, 0 <= sampleRnd n < 1) /\
  List.length (fst (randomPopulation sampleRnd 6%nat 0%nat)) = 6%nat /\
  snd (randomPopulation sampleRnd 6%nat 0%nat) = 12%nat.
Proof.
  split; [exact sampleRnd_unit |].
  destruct (randomPopulation_factory sampleRnd sampleRnd_unit 6%nat 0%nat)
    as [L [_ [_ [D _]]]].
  split; [exact L | exact D].
Defined.

Lemma changePopulationSize_spec_witness :
  (forall n, 0 <= sampleRnd n < 1) /\
  Forall validOrganism (population sampleState) /\
  List.length (population (fst (changePopulationSize sampleRnd 9%nat sampleState 0%nat)))
  = 9%nat.
Proof.
  split; [exact sampleRnd_unit |]. split; [exact samplePopulation_valid |].
  exact (proj1 (proj2 (changePopulationSize_spec sampleRnd sampleRnd_unit 9%nat
                         sampleState 0%nat samplePopulation_valid))).
Defined.

Lemma syncPopulation_idempotent_witness :
  (forall n, 0 <= sampleRnd n < 1) /\
  let s' := fst (syncPopulation sampleRnd (setPopulationSize 9%nat sampleState) 0%nat) in
  syncPopulation sampleRnd s' 5%nat = (s', 5%nat).
Proof.
  split; [exact sampleRnd_unit |].
  exact (proj2 (syncPopulation_idempotent sampleRnd sampleRnd_unit
                  (setPopulationSize 9%nat sampleState) 0%nat 5%nat)).
Defined.

Lemma resetSimulation_spec_witness :
  (forall n, 0 <= sampleRnd n < 1) /\
  wellFormed (fst (resetSimulation sampleRnd secondState 0%nat)).
Proof.
  split; [exact sampleRnd_unit |].
  destruct (resetSimulation_spec sampleRnd sampleRnd_unit secondState 0%nat)
    as [_ [_ [_ [_ [W _]]]]].
  exact W.
Defined.

Lemma offspring_descent_witness :
  (forall n, 0 <= sampleRnd n < 1) /\
  fst (afterPredationOf sampleRnd sampleState 0%nat) <> [] /\
  exists s', fst (simulateGeneration sampleRnd sampleState 0%nat) = Normal s' /\
             population s' = fst (offspringOf sampleRnd sampleState 0%nat).
Proof.
  assert (N : fst (afterPredationOf sampleRnd sampleState 0%nat) <> [])
    by discriminate.
  split; [exact sampleRnd_unit |]. split; [exact N |].
  exact (proj2 (proj2 (proj2 (offspring_descent sampleRnd sampleRnd_unit
                                sampleState 0%nat))) N).
Defined.

Lemma single_survivor_witness :
  let s := setFoodPerGen 1%Z sampleState in
  let ranked := sort (fst (scoredOf sampleRnd s 0%nat)) in
  let top := hd (mkScored (mkOrganism 0 None 0) 0) ranked in
  (forall n, 0 <= sampleRnd n < 1) /\
  foodPerGen s = 1%Z /\
  ranked = top :: tl ranked /\
  fst (survivorsOf sampleRnd s 0%nat) = [top].
Proof.
  intros s ranked top.
  assert (F : foodPerGen s = 1%Z) by reflexivity.
  assert (E : ranked = top :: tl ranked) by reflexivity.
  split; [exact sampleRnd_unit |]. split; [exact F |]. split; [exact E |].
  exact (proj1 (single_survivor sampleRnd sampleRnd_unit s 0%nat top (tl ranked)
                  F E)).
Defined.

Lemma generations_compose_witness :
  numbered sampleState /\
  exists s', fst (generations sampleRnd 2%nat sampleState 0%nat) = Normal s' /\
             generation s' = 3%Z /\ numbered s'.
Proof.
  assert (N : numbered sampleState).
  { split; [reflexivity |]. intros [| k] r H; discriminate. }
  split; [exact N |].
  destruct (proj1 (generations_compose sampleRnd 2%nat 0%nat sampleState 0%nat))
    as [s' [E [G [_ [_ [_ [_ [_ Nb]]]]]]]].
  exists s'. split; [exact E |]. split; [exact G | exact (Nb N)].
Defined.

Lemma session_population_witness :
  (forall n, 0 <= sampleRnd n < 1) /\
  reachable sampleRnd busyComponent /\
  List.length (population (cells busyComponent)) = 20%nat.
Proof.
  split; [exact sampleRnd_unit |]. split; [exact busyComponent_reachable |].
  exact (proj1 (session_population sampleRnd sampleRnd_unit busyComponent
                  busyComponent_reachable)).
Defined.

Lemma session_environment_witness :
  (forall n, 0 <= sampleRnd n < 1) /\
  reachable sampleRnd busyComponent /\
  (1 <= foodPerGen (cells busyComponent))%Z.
Proof.
  split; [exact sampleRnd_unit |]. split; [exact busyComponent_reachable |].
  exact (proj1 (proj2 (proj2 (session_environment sampleRnd sampleRnd_unit
                                busyComponent busyComponent_reachable)))).
Defined.

Lemma session_history_witness :
  (forall n, 0 <= sampleRnd n < 1) /\
  reachable sampleRnd busyComponent /\
  (Z.of_nat (List.length (history (cells busyComponent)))
   < generation (cells busyComponent))%Z.
Proof.
  split; [exact sampleRnd_unit |]. split; [exact busyComponent_reachable |].
  exact (proj1 (proj2 (session_history sampleRnd sampleRnd_unit busyComponent
                         busyComponent_reachable))).
Defined.

Lemma session_timer_witness :
  (forall n, 0 <= sampleRnd n < 1) /\
  reachable sampleRnd busyComponent /\
  (running (cells busyComponent) = true <-> timers busyComponent = 1%nat).
Proof.
  split; [exact sampleRnd_unit |]. split; [exact busyComponent_reachable |].
  exact (proj1 (proj2 (session_timer sampleRnd sampleRnd_unit busyComponent
                         busyComponent_reachable))).
Defined.
